(** * The obfuscation job pipeline of [routes.ts]

    A shallow embedding of the request handler that [registerRoutes]
    installs on [POST /api/obfuscate], of the interpreter resolver
    [findLuaPath] and of [ensureTempDir], followed by the properties of the
    pipeline: tier normalisation, order of the steps, release of the scratch
    files and the life cycle of the interpreter cache.

    The handler is asynchronous JavaScript.  It is embedded as a function in
    a monad of state, exceptions and a trace of the effects it performs; one
    run of the handler is one request served from beginning to end.

    A [string] stands for a JavaScript string through its UTF-8 encoding,
    and for the bytes of a file. *)

From Stdlib Require Import Ascii String ZArith.
From stdpp Require Import gmap strings list.

Set Warnings "-register-all".

(** ** JavaScript values and errors *)

(** The values a JSON request body can hold in a field; [JUndefined] stands
    for a field that is missing.  Of a number only its truthiness is ever
    observed. *)
Inductive JsValue : Type :=
  | JUndefined
  | JNull
  | JBool (b : bool)
  | JNum (n : Z)
  | JStr (s : string)
  | JArr (items : list JsValue)
  | JObj (fields : list (string * JsValue)).

(** [!!v] *)
Definition truthy (v : JsValue) : bool :=
  match v with
  | JUndefined | JNull => false
  | JBool b => b
  | JNum n => negb (n =? 0)%Z
  | JStr s => negb (String.eqb s EmptyString)
  | JArr _ | JObj _ => true
  end.

(** [typeof v] *)
Definition typeof (v : JsValue) : string :=
  match v with
  | JUndefined => "undefined"
  | JBool _ => "boolean"
  | JNum _ => "number"
  | JStr _ => "string"
  | JNull | JArr _ | JObj _ => "object"
  end.

(** The narrowing [v as string]; it is only applied where the surrounding
    code has established that [v] is a string. *)
Definition as_string (v : JsValue) : string :=
  match v with JStr s => s | _ => EmptyString end.

(** An error object: [error.message], and [error.stderr] which only the
    errors of [child_process.exec] carry. *)
Record JsError : Type := mkError {
  message : string;
  stderr : option string;
}.

(** [new Error(msg)] *)
Definition Error (msg : string) : JsError := mkError msg None.

(** [a || b] on strings: the empty string is falsy. *)
Definition str_or (a b : string) : string :=
  if String.eqb a EmptyString then b else a.

(** [a || b] where [a] may be [undefined] or [null]. *)
Definition opt_or (a : option string) (b : string) : string :=
  match a with Some s => str_or s b | None => b end.

(** [!p] for a [string | null]. *)
Definition falsy_path (p : option string) : bool :=
  match p with Some s => String.eqb s EmptyString | None => true end.

(** The string of the bytes [codes]. *)
Definition bytes (codes : list nat) : string :=
  string_of_list_ascii (map ascii_of_nat codes).

(** The white space and the line terminators of ECMAScript, each in UTF-8:
    U+0009 to U+000D, U+0020, U+00A0, U+1680, U+2000 to U+200A, U+2028,
    U+2029, U+202F, U+205F, U+3000 and U+FEFF. *)
Definition white_space : list string :=
  map bytes
    [[9]; [10]; [11]; [12]; [13]; [32];
     [194; 160];
     [225; 154; 128];
     [226; 128; 128]; [226; 128; 129]; [226; 128; 130]; [226; 128; 131];
     [226; 128; 132]; [226; 128; 133]; [226; 128; 134]; [226; 128; 135];
     [226; 128; 136]; [226; 128; 137]; [226; 128; 138];
     [226; 128; 168]; [226; 128; 169]; [226; 128; 175];
     [226; 129; 159];
     [227; 128; 128];
     [239; 187; 191]].

(** The rest of [s] after [pattern], when [s] starts with it. *)
Fixpoint drop_prefix (pattern s : string) : option string :=
  match pattern, s with
  | EmptyString, _ => Some s
  | String a p, String b r => if Ascii.eqb a b then drop_prefix p r else None
  | String _ _, EmptyString => None
  end.

(** The rest of [s] after the first of [patterns] it starts with. *)
Fixpoint drop_any (patterns : list string) (s : string) : option string :=
  match patterns with
  | [] => None
  | p :: ps =>
      match drop_prefix p s with
      | Some rest => Some rest
      | None => drop_any ps s
      end
  end.

(** [s] without the [patterns] it starts with, one after the other; [fuel]
    bounds their number, and the length of [s] is enough of it. *)
Fixpoint strip (patterns : list string) (fuel : nat) (s : string) : string :=
  match fuel with
  | 0 => s
  | S n =>
      match drop_any patterns s with
      | Some rest => strip patterns n rest
      | None => s
      end
  end.

(** [s.trimStart()], [s.trimEnd()] and [s.trim()]. *)
Definition trimStart (s : string) : string :=
  strip white_space (String.length s) s.

Definition trimEnd (s : string) : string :=
  String.rev
    (strip (map String.rev white_space) (String.length s) (String.rev s)).

Definition trim (s : string) : string := trimEnd (trimStart s).

(** ** The world the handler acts on *)

(** The files and directories of the file system, and the module variable
    [cachedLuaPath]. *)
Record World : Type := mkWorld {
  files : gmap string string;
  dirs : gset string;
  cachedLuaPath : option string;
}.

Definition set_files (fs : gmap string string) (w : World) : World :=
  mkWorld fs (dirs w) (cachedLuaPath w).

Definition set_dirs (ds : gset string) (w : World) : World :=
  mkWorld (files w) ds (cachedLuaPath w).

Definition set_cachedLuaPath (p : option string) (w : World) : World :=
  mkWorld (files w) (dirs w) p.

(** The options given to [exec]. *)
Record ExecOptions : Type := mkOptions {
  timeout : Z;
  maxBuffer : option Z;
}.

(** What the outside answers while one request (or the start-up) runs: the
    identifier [randomUUID] draws, the errors of the file system, and the
    shell, which turns a command line into an error or the standard output
    and changes the files as it pleases.  [utf8_decode] is the decoding Node
    applies to the bytes of a file read with the encoding ["utf-8"]: bytes
    that are no UTF-8 come back as U+FFFD. *)
Record Env : Type := mkEnv {
  uuid : string;
  mkdir_error : string -> option JsError;
  write_error : string -> string -> option (JsError * option string);
  read_error : string -> option JsError;
  unlink_error : string -> option JsError;
  shell : string -> ExecOptions -> gmap string string ->
          (JsError + string) * gmap string string;
  utf8_decode : string -> string;
}.

(** The effects a run performs, in order. *)
Inductive Event : Type :=
  | EMkdir (path : string)
  | EExec (command : string)
  | EUuid
  | EWrite (path content : string)
  | ERead (path : string)
  | EUnlink (path : string)
  | EConsole (text : string).

(** ** The monad *)

Inductive Outcome (A : Type) : Type :=
  | Ok (a : A)
  | Throw (e : JsError).
Arguments Ok {A} a.
Arguments Throw {A} e.

Definition M (A : Type) : Type := World -> Outcome A * World * list Event.

Definition ret {A} (a : A) : M A := fun w => (Ok a, w, []).

Definition throw {A} (e : JsError) : M A := fun w => (Throw e, w, []).

Definition bind {A B} (m : M A) (f : A -> M B) : M B := fun w =>
  match m w with
  | (Ok a, w1, t1) =>
      match f a w1 with (r, w2, t2) => (r, w2, t1 ++ t2) end
  | (Throw e, w1, t1) => (Throw e, w1, t1)
  end.

(** [try { body } catch (e) { handler e }] *)
Definition try_catch {A} (body : M A) (handler : JsError -> M A) : M A :=
  fun w =>
  match body w with
  | (Ok a, w1, t1) => (Ok a, w1, t1)
  | (Throw e, w1, t1) =>
      match handler e w1 with (r, w2, t2) => (r, w2, t1 ++ t2) end
  end.

Declare Scope js_scope.
Delimit Scope js_scope with js.
Notation "x <- m ;; k" := (bind m (fun x => k))
  (at level 100, m at next level, right associativity) : js_scope.
Notation "m ;; k" := (bind m (fun _ => k))
  (at level 100, right associativity) : js_scope.
Local Open Scope js_scope.

Definition result {A} (x : Outcome A * World * list Event) : Outcome A :=
  x.1.1.
Definition final {A} (x : Outcome A * World * list Event) : World := x.1.2.
Definition trace {A} (x : Outcome A * World * list Event) : list Event :=
  x.2.

(** The paths of the deletions attempted in a trace, the command lines run,
    and the paths written. *)
Definition unlinks (t : list Event) : list string :=
  omap (fun e => match e with EUnlink p => Some p | _ => None end) t.

Definition execs (t : list Event) : list string :=
  omap (fun e => match e with EExec c => Some c | _ => None end) t.

Definition writes (t : list Event) : list string :=
  omap (fun e => match e with EWrite p _ => Some p | _ => None end) t.

(** ** Node's primitives *)

Section Primitives.
Variable E : Env.

(** [mkdir(path, { recursive: true })]: an existing directory is not an
    error. *)
Definition mkdir (path : string) : M unit := fun w =>
  match mkdir_error E path with
  | Some e => (Throw e, w, [EMkdir path])
  | None => (Ok tt, set_dirs ({[path]} ∪ dirs w) w, [EMkdir path])
  end.

(** [writeFile(path, data, "utf-8")]; a write that fails may leave a
    truncated file behind. *)
Definition writeFile (path data : string) : M unit := fun w =>
  match write_error E path data with
  | Some (e, None) => (Throw e, w, [EWrite path data])
  | Some (e, Some partial) =>
      (Throw e, set_files (<[path := partial]> (files w)) w,
       [EWrite path data])
  | None =>
      (Ok tt, set_files (<[path := data]> (files w)) w, [EWrite path data])
  end.

(** [readFile(path, "utf-8")]: the bytes of the file, decoded. *)
Definition readFile (path : string) : M string := fun w =>
  match files w !! path with
  | None => (Throw (Error ("ENOENT: no such file or directory, open '"
                            +:+ path +:+ "'")), w, [ERead path])
  | Some data =>
      match read_error E path with
      | Some e => (Throw e, w, [ERead path])
      | None => (Ok (utf8_decode E data), w, [ERead path])
      end
  end.

(** [unlink(path)]: a file that is not there is an error; so is whatever
    else the file system refuses. *)
Definition unlink (path : string) : M unit := fun w =>
  match files w !! path with
  | None => (Throw (Error ("ENOENT: no such file or directory, unlink '"
                            +:+ path +:+ "'")), w, [EUnlink path])
  | Some _ =>
      match unlink_error E path with
      | Some e => (Throw e, w, [EUnlink path])
      | None => (Ok tt, set_files (delete path (files w)) w, [EUnlink path])
      end
  end.

(** [execAsync(command, options)], giving the standard output. *)
Definition execAsync (command : string) (options : ExecOptions) : M string :=
  fun w =>
  match shell E command options (files w) with
  | (inl e, fs) => (Throw e, set_files fs w, [EExec command])
  | (inr stdout, fs) => (Ok stdout, set_files fs w, [EExec command])
  end.

(** [randomUUID()] *)
Definition randomUUID : M string := fun w => (Ok (uuid E), w, [EUuid]).

(** [console.log] and [console.error] *)
Definition console (text : string) : M unit := fun w =>
  (Ok tt, w, [EConsole text]).

End Primitives.

Definition get_cachedLuaPath : M (option string) := fun w =>
  (Ok (cachedLuaPath w), w, []).

Definition assign_cachedLuaPath (p : string) : M unit := fun w =>
  (Ok tt, set_cachedLuaPath (Some p) w, []).

(** ** [routes.ts] *)

Section Routes.
(** [process.cwd()] and [path.join]. *)
Variable cwd : string.
Variable join : list string -> string.

Definition PROMETHEUS_CLI : string :=
  join [cwd; "prometheus-obfuscator"; "cli.lua"].

Definition TEMP_DIR : string := join [cwd; "temp"].

Definition VALID_PRESETS : list string :=
  ["Weak"; "Medium"; "Strong"; "Maximum"].

Definition PRESET_MAP : gmap string string :=
  list_to_map
    [("Weak", "Weak"); ("Medium", "Medium"); ("Strong", "Strong");
     ("Maximum", "Strong")].

(** [array.includes(v)] on an array of strings. *)
Definition includes (array : list string) (v : JsValue) : bool :=
  existsb (fun x => match v with JStr s => String.eqb x s | _ => false end)
          array.

(** The candidates of [findLuaPath], in the order they are tried. *)
Definition possiblePaths : list string :=
  ["lua"; "lua5.1";
   "/nix/store/mqbhz05llkddfb5wni0m48kw22ixxps4-lua-5.1.5/bin/lua"].

Definition find_command : string :=
  "find /nix/store -name 'lua' -type f 2>/dev/null | grep 'lua-5.1' | head -1".

(** The probing loop of [findLuaPath]: the first candidate whose version
    probe does not throw is returned; when none is left, control falls
    through to what follows the loop. *)
Fixpoint probe (E : Env) (paths : list string) (after : M string) : M string :=
  match paths with
  | [] => after
  | path :: rest =>
      try_catch
        (execAsync E (path +:+ " -v") (mkOptions 5000 None) ;; ret path)
        (fun _ => probe E rest after)
  end.

Definition findLuaPath (E : Env) : M string :=
  probe E possiblePaths
    (found <- try_catch
                (stdout <- execAsync E find_command (mkOptions 10000 None) ;;
                 let foundPath := trim stdout in
                 if truthy (JStr foundPath) then ret (Some foundPath)
                 else ret None)
                (fun _ => ret None) ;;
     match found with
     | Some foundPath => ret foundPath
     | None =>
         throw (Error
           "Lua interpreter not found. Please ensure Lua 5.1 is installed.")
     end).

Definition ensureTempDir (E : Env) : M unit :=
  try_catch (mkdir E TEMP_DIR) (fun _ => ret tt).

(** The part of [registerRoutes] that runs once, before the route is
    installed. *)
Definition registerRoutes (E : Env) : M unit :=
  ensureTempDir E ;;
  try_catch
    (found <- findLuaPath E ;;
     assign_cachedLuaPath found ;;
     console ("Found Lua at: " +:+ found))
    (fun error =>
     console "Warning: Could not find Lua interpreter on startup:").

(** [let cachedLuaPath: string | null = null] *)
Definition boot (fs : gmap string string) (ds : gset string) : World :=
  mkWorld fs ds None.

(** *** The handler of [POST /api/obfuscate] *)

Record Body : Type := mkBody {
  code : JsValue;
  preset : JsValue;
}.

Inductive Json : Type :=
  | Success (obfuscatedCode preset : string)
  | Failure (error : string).

Record Response : Type := mkResponse {
  status : nat;
  json : Json;
}.

(** [const { code, preset = "Strong" } = req.body]: the default of [preset]. *)
Definition presetOrDefault (raw : JsValue) : JsValue :=
  match raw with JUndefined => JStr "Strong" | v => v end.

(** The guard of lines 80-85. *)
Definition rejected (code : JsValue) : bool :=
  negb (truthy code) || negb (String.eqb (typeof code) "string").

(** Lines 87-89. *)
Definition validatedPreset (preset : JsValue) : string :=
  if includes VALID_PRESETS preset then as_string preset else "Strong".

(** Lines 91-100: [Some response] is the early [return]. *)
Definition ensureLua (E : Env) : M (option Response) :=
  cached <- get_cachedLuaPath ;;
  if falsy_path cached then
    try_catch
      (found <- findLuaPath E ;; assign_cachedLuaPath found ;; ret None)
      (fun error =>
       ret (Some (mkResponse 500
         (Failure (str_or (message error) "Lua interpreter not found.")))))
  else ret None.

Definition dquote : string := String "034"%char EmptyString.

(** The template of line 110. *)
Definition command (lua : option string) (actualPreset inputFile : string)
  : string :=
  "cd " +:+ dquote +:+ join [cwd; "prometheus-obfuscator"] +:+ dquote
  +:+ " && " +:+ dquote +:+ default "null" lua +:+ dquote
  +:+ " " +:+ dquote +:+ PROMETHEUS_CLI +:+ dquote
  +:+ " --preset " +:+ actualPreset
  +:+ " " +:+ dquote +:+ inputFile +:+ dquote.

(** Lines 119-124 and again lines 132-137. *)
Definition release (E : Env) (inputFile outputFile : string) : M unit :=
  try_catch (unlink E inputFile ;; unlink E outputFile) (fun _ => ret tt).

Definition inputFile (fileId : string) : string :=
  join [TEMP_DIR; "input_" +:+ fileId +:+ ".lua"].

Definition outputFile (fileId : string) : string :=
  join [TEMP_DIR; "input_" +:+ fileId +:+ ".obfuscated.lua"].

(** Lines 102-146. *)
Definition obfuscate (E : Env) (code validatedPreset : string) : M Response :=
  fileId <- randomUUID E ;;
  try_catch
    (writeFile E (inputFile fileId) code ;;
     let actualPreset := opt_or (PRESET_MAP !! validatedPreset) "Strong" in
     lua <- get_cachedLuaPath ;;
     execAsync E (command lua actualPreset (inputFile fileId))
       (mkOptions 120000 (Some (50 * 1024 * 1024)%Z)) ;;
     obfuscatedCode <- readFile E (outputFile fileId) ;;
     release E (inputFile fileId) (outputFile fileId) ;;
     ret (mkResponse 200 (Success obfuscatedCode validatedPreset)))
    (fun error =>
     release E (inputFile fileId) (outputFile fileId) ;;
     console "Obfuscation error:" ;;
     let errorMessage :=
       opt_or (stderr error)
         (str_or (message error) "Unknown error during obfuscation") in
     ret (mkResponse 500 (Failure ("Obfuscation failed: " +:+ errorMessage)))).

Definition handler (E : Env) (body : Body) : M Response :=
  let preset := presetOrDefault (preset body) in
  if rejected (code body) then
    ret (mkResponse 400
      (Failure "No code provided. Please enter Lua code to obfuscate."))
  else
    let validatedPreset := validatedPreset preset in
    early <- ensureLua E ;;
    match early with
    | Some response => ret response
    | None => obfuscate E (as_string (code body)) validatedPreset
    end.

End Routes.

Arguments command : simpl never.
Arguments inputFile : simpl never.
Arguments outputFile : simpl never.
Arguments TEMP_DIR : simpl never.
Arguments PROMETHEUS_CLI : simpl never.

(** Requests are served one after the other, each against what the outside
    answers while it runs. *)
Fixpoint serve (cwd : string) (join : list string -> string)
    (requests : list (Env * Body)) (w : World) : World :=
  match requests with
  | [] => w
  | (E, body) :: rest =>
      serve cwd join rest (final (handler cwd join E body w))
  end.

(** The command lines of [findLuaPath]. *)
Definition resolver_commands : list string :=
  map (fun path => path +:+ " -v") possiblePaths ++ [find_command].

(** ** A concrete host, to run the model on *)

(** [path.join] of POSIX where it has nothing to normalise: on an absolute
    directory without a trailing slash, such as [/srv], followed by
    segments that hold no slash and are neither [.] nor [..]. *)
Definition posix_join (segments : list string) : string :=
  foldr (fun a b => if String.eqb b EmptyString then a else a +:+ "/" +:+ b)
        EmptyString segments.

Definition no_error : string -> option JsError := fun _ => None.

(** The files of the runs below hold ASCII, which the decoding of UTF-8
    leaves as it is. *)
Definition ascii_text : string -> string := fun data => data.

(** A shell in which [lua] answers its version probe and the obfuscator
    writes [artifact] next to the input of job [id]. *)
Definition demo_shell (id artifact : string) (cmd : string)
    (_ : ExecOptions) (fs : gmap string string)
  : (JsError + string) * gmap string string :=
  if String.prefix "cd " cmd then
    (inr EmptyString,
     <[outputFile "/srv" posix_join id := artifact]> fs)
  else if String.eqb cmd "lua -v" then (inr "Lua 5.1.5", fs)
  else (inl (mkError "Command failed" (Some "sh: 1: not found")), fs).

(** A shell in which no command succeeds. *)
Definition dead_shell (cmd : string) (_ : ExecOptions)
    (fs : gmap string string) : (JsError + string) * gmap string string :=
  (inl (mkError "Command failed" (Some "sh: 1: not found")), fs).

Definition demo_env (id artifact : string) : Env :=
  mkEnv id no_error (fun _ _ => None) no_error no_error
        (demo_shell id artifact) ascii_text.

Definition dead_env (id : string) : Env :=
  mkEnv id no_error (fun _ _ => None) no_error no_error dead_shell
        ascii_text.

(** A file system that refuses to create any directory. *)
Definition readonly_env : Env :=
  mkEnv "u1"
        (fun _ => Some (Error "EACCES: permission denied, mkdir"))
        (fun _ _ => None) no_error no_error dead_shell ascii_text.

(** A file system that refuses to delete the one path [busy]. *)
Definition busy_env (id artifact busy : string) : Env :=
  mkEnv id no_error (fun _ _ => None) no_error
        (fun p => if String.eqb p busy
                  then Some (Error "EBUSY: resource busy or locked, unlink")
                  else None)
        (demo_shell id artifact) ascii_text.

(** ** Vocabulary of the statements *)

(** The options of line 112. *)
Definition tool_options : ExecOptions :=
  mkOptions 120000 (Some (50 * 1024 * 1024)%Z).

Definition resolver_event (e : Event) : Prop :=
  exists c, e = EExec c /\ c ∈ resolver_commands.

Definition not_found : string :=
  "Lua interpreter not found. Please ensure Lua 5.1 is installed.".

(** What every run of the resolver, and of each tail of its loop, does: it
    only runs its own command lines, leaves the cache and the directories
    alone, and either returns a path that is not empty or throws the one
    error of [findLuaPath]. *)
Definition resolves (m : M string) : Prop :=
  forall w, exists r w' t,
    m w = (r, w', t) /\
    cachedLuaPath w' = cachedLuaPath w /\
    dirs w' = dirs w /\
    Forall resolver_event t /\
    match r with
    | Ok path => path <> EmptyString
    | Throw e => e = Error not_found
    end.

Arguments release : simpl never.

(** Proof steps that recur in the cases of a job. *)
Ltac kept_input Hkept Hkeep :=
  let Hgone := fresh in
  let Hd := fresh in
  simpl; intros Hgone; destruct (Hkept Hkeep) as [? Hd]; simpl in Hd;
  congruence.

Ltac split_trace Ht :=
  destruct Ht as [-> | ->]; simpl; auto.

(** The failure response of lines 139-145, for the error caught. *)
Definition job_failure (e : JsError) : Response :=
  mkResponse 500
    (Failure ("Obfuscation failed: " +:+
              opt_or (stderr e)
                (str_or (message e) "Unknown error during obfuscation"))).

(** The error of [readFile] on a file that is not there. *)
Definition read_ENOENT (path : string) : JsError :=
  Error ("ENOENT: no such file or directory, open '" +:+ path +:+ "'").

(** What a job ends with: the error of its first step that fails (the write
    of the input, the run of the tool, the read of the output), or the text
    the bytes of the output decode to.  [fs] holds the files at allocation, [cmd] is the command
    line of the job. *)
Definition job_verdict (E : Env) (i o cmd source : string)
    (fs : gmap string string) : JsError + string :=
  match write_error E i source with
  | Some (e, _) => inl e
  | None =>
      match shell E cmd tool_options (<[i := source]> fs) with
      | (inl e, _) => inl e
      | (inr _, after) =>
          match after !! o with
          | None => inl (read_ENOENT o)
          | Some data =>
              match read_error E o with
              | Some e => inl e
              | None => inr (utf8_decode E data)
              end
          end
      end
  end.

(** The response for a verdict: lines 126-130 and 139-145. *)
Definition job_response (tier : string) (verdict : JsError + string)
  : Response :=
  match verdict with
  | inl e => job_failure e
  | inr text => mkResponse 200 (Success text tier)
  end.

(** What a job prints on the console. *)
Definition job_console (verdict : JsError + string) : list Event :=
  match verdict with
  | inl _ => [EConsole "Obfuscation error:"]
  | inr _ => []
  end.

(** The command lines of the probes of [paths]. *)
Definition probe_commands (paths : list string) : list string :=
  map (fun path => path +:+ " -v") paths.

(** A shell in which only the version probe of [good] succeeds. *)
Definition only_shell (good : string) (cmd : string) (_ : ExecOptions)
    (fs : gmap string string) : (JsError + string) * gmap string string :=
  if String.eqb cmd (good +:+ " -v") then (inr "Lua 5.1.5", fs)
  else (inl (mkError "Command failed" (Some "sh: 1: not found")), fs).

(** A shell in which no probe succeeds and [find] prints [stdout]. *)
Definition find_shell (stdout : string) (cmd : string) (_ : ExecOptions)
    (fs : gmap string string) : (JsError + string) * gmap string string :=
  if String.eqb cmd find_command then (inr stdout, fs)
  else (inl (mkError "Command failed" (Some "sh: 1: not found")), fs).

(** The decoding of UTF-8 on ASCII text with bytes 255 among it: a byte 255
    is no UTF-8 and comes back as U+FFFD, which is the bytes 239 191 189. *)
Fixpoint replace_255 (data : string) : string :=
  match data with
  | EmptyString => EmptyString
  | String c rest =>
      if Ascii.eqb c (ascii_of_nat 255)
      then bytes [239; 191; 189] +:+ replace_255 rest
      else String c (replace_255 rest)
  end.

(** The host of [demo_env], with a tool that leaves the one byte 255. *)
Definition binary_env (id : string) : Env :=
  mkEnv id no_error (fun _ _ => None) no_error no_error
        (demo_shell id (bytes [255])) replace_255.

(** A file name without a slash. *)
Definition slash_free (name : string) : bool :=
  forallb (fun c => negb (Ascii.eqb c "/")) (list_ascii_of_string name).

Definition shell_env (id : string)
    (sh : string -> ExecOptions -> gmap string string ->
          (JsError + string) * gmap string string) : Env :=
  mkEnv id no_error (fun _ _ => None) no_error no_error sh ascii_text.

(** The steps a job performs between the write of its input and its
    release. *)
Definition job_steps (E : Env) (i o cmd source : string)
    (fs : gmap string string) : list Event :=
  match write_error E i source with
  | Some _ => []
  | None =>
      match shell E cmd tool_options (<[i := source]> fs) with
      | (inl _, _) => [EExec cmd]
      | (inr _, _) => [EExec cmd; ERead o]
      end
  end.

(** ** [home.tsx]: the state of the page and its handlers *)

Module Client.

Inductive PresetLevel : Type := Weak | Medium | Strong | Maximum.

(** The string a [PresetLevel] is. *)
Definition preset_text (p : PresetLevel) : string :=
  match p with
  | Weak => "Weak"
  | Medium => "Medium"
  | Strong => "Strong"
  | Maximum => "Maximum"
  end.

Inductive Tab : Type := InputTab | OutputTab.

(** The hooks of [Home], lines 74-80. *)
Record Home : Type := mkHome {
  inputCode : string;
  outputCode : string;
  copiedInput : bool;
  copiedOutput : bool;
  preset : PresetLevel;
  mobileTab : Tab;
  settingsOpen : bool;
}.

(** [useState] at the first render. *)
Definition initial : Home :=
  mkHome EmptyString EmptyString false false Maximum InputTab false.

Definition setInputCode (v : string) (st : Home) : Home :=
  mkHome v (outputCode st) (copiedInput st) (copiedOutput st) (preset st)
         (mobileTab st) (settingsOpen st).

Definition setOutputCode (v : string) (st : Home) : Home :=
  mkHome (inputCode st) v (copiedInput st) (copiedOutput st) (preset st)
         (mobileTab st) (settingsOpen st).

Definition setPreset (v : PresetLevel) (st : Home) : Home :=
  mkHome (inputCode st) (outputCode st) (copiedInput st) (copiedOutput st)
         v (mobileTab st) (settingsOpen st).

Definition setMobileTab (v : Tab) (st : Home) : Home :=
  mkHome (inputCode st) (outputCode st) (copiedInput st) (copiedOutput st)
         (preset st) v (settingsOpen st).

(** An argument of [toast]. *)
Record Toast : Type := mkToast {
  destructive : bool;
  title : string;
  description : string;
}.

(** [handleObfuscate], lines 113-123: the body handed to the mutation, if
    any, and the toasts shown. *)
Definition handleObfuscate (st : Home) : option Body * list Toast :=
  if negb (truthy (JStr (trim (inputCode st)))) then
    (None,
     [mkToast true "No Code Entered"
        "Please enter some Lua code to obfuscate."])
  else
    (Some (mkBody (JStr (inputCode st)) (JStr (preset_text (preset st)))),
     []).

(** [onSuccess] of the mutation, lines 88-103, on the JSON of the
    response. *)
Definition onSuccess (data : Json) (st : Home) : Home * list Toast :=
  match data with
  | Success obfuscatedCode _ =>
      (setMobileTab OutputTab (setOutputCode obfuscatedCode st),
       [mkToast false "Obfuscation Complete"
          ("Your code has been successfully obfuscated with the " +:+
           preset_text (preset st) +:+ " preset.")])
  | Failure error =>
      (st,
       [mkToast true "Obfuscation Failed"
          (str_or error "An unknown error occurred.")])
  end.

(** [clearInput], lines 174-177. *)
Definition clearInput (st : Home) : Home :=
  setOutputCode EmptyString (setInputCode EmptyString st).

(** [downloadCode], lines 148-163: the text saved as [obfuscated.lua], if
    any, and the toasts shown. *)
Definition downloadCode (st : Home) : option string * list Toast :=
  if negb (truthy (JStr (outputCode st))) then (None, [])
  else
    (Some (outputCode st),
     [mkToast false "Downloaded" "Obfuscated code saved as obfuscated.lua"]).

(** [s.split("\n")]. *)
Fixpoint split_lines (s : string) : list string :=
  match s with
  | EmptyString => [EmptyString]
  | String c rest =>
      if Ascii.eqb c "010"%char then EmptyString :: split_lines rest
      else
        match split_lines rest with
        | line :: others => String c line :: others
        | [] => [String c EmptyString]
        end
  end.

(** [inputLineCount] and [outputLineCount], lines 190 and 192. *)
Definition lineCount (s : string) : nat := length (split_lines s).

(** The number shown under the output panel:
    [outputCode ? outputLineCount : 0], line 330. *)
Definition outputLinesShown (st : Home) : nat :=
  if truthy (JStr (outputCode st)) then lineCount (outputCode st) else 0.

(** The number of line feeds of a string. *)
Fixpoint newlines (s : string) : nat :=
  match s with
  | EmptyString => 0
  | String c rest =>
      (if Ascii.eqb c "010"%char then 1 else 0) + newlines rest
  end.

End Client.

(** ** Normalisation of the tier *)

Lemma includes_JStr (array : list string) (s : string) :
  includes array (JStr s) = true <-> s ∈ array.
Proof.
  unfold includes. induction array as [|x rest IH]; simpl.
  - split; [discriminate | intros H; inversion H].
  - rewrite orb_true_iff, IH, elem_of_cons.
    destruct (String.eqb_spec x s) as [->|Hne]; split; auto.
    + intros [Heq|Hin]; [discriminate | by right].
    + intros [Heq|Hin]; [by destruct Hne | by right].
Qed.

Lemma includes_is_string (array : list string) (v : JsValue) :
  includes array v = true -> exists s, v = JStr s /\ s ∈ array.
Proof.
  intros H. destruct v as [| | | |s| |];
    try (exfalso; induction array; simpl in H; [discriminate | solve [auto]]).
  exists s. split; [reflexivity | by apply includes_JStr].
Qed.

Lemma validatedPreset_enumerated (v : JsValue) :
  validatedPreset v ∈ VALID_PRESETS.
Proof.
  unfold validatedPreset. destruct (includes VALID_PRESETS v) eqn:Hin.
  - apply includes_is_string in Hin as (s & -> & Hs). exact Hs.
  - unfold VALID_PRESETS. set_solver.
Qed.

Lemma validatedPreset_other (v : JsValue) :
  (forall s, s ∈ VALID_PRESETS -> v <> JStr s) -> validatedPreset v = "Strong".
Proof.
  intros Hout. unfold validatedPreset.
  destruct (includes VALID_PRESETS v) eqn:Hin; [|reflexivity].
  apply includes_is_string in Hin as (s & -> & Hs). by destruct (Hout s Hs).
Qed.

Lemma presetOrDefault_other (raw : JsValue) :
  (forall s, s ∈ VALID_PRESETS -> raw <> JStr s) ->
  validatedPreset (presetOrDefault raw) = "Strong".
Proof.
  intros Hout. destruct raw; try (apply validatedPreset_other, Hout);
    reflexivity.
Qed.

(** C2: normalisation of the tier is a total function into the four
    enumerated tiers; an enumerated tier is kept as it is; every other value,
    a missing one included, becomes ["Strong"], which is the second
    strongest of the ordered tiers; and the handler then runs exactly as it
    does for ["Strong"], so the tier alone never makes a job fail. *)
Theorem tier_normalisation_total_with_default :
  (forall raw, validatedPreset (presetOrDefault raw) ∈ VALID_PRESETS) /\
  (forall s, s ∈ VALID_PRESETS ->
     validatedPreset (presetOrDefault (JStr s)) = s) /\
  (forall raw, (forall s, s ∈ VALID_PRESETS -> raw <> JStr s) ->
     validatedPreset (presetOrDefault raw) = "Strong") /\
  rev VALID_PRESETS !! 1%nat = Some "Strong" /\
  (forall cwd join E source raw w,
     (forall s, s ∈ VALID_PRESETS -> raw <> JStr s) ->
     handler cwd join E (mkBody source raw) w =
     handler cwd join E (mkBody source (JStr "Strong")) w).
Proof.
  split; [|split; [|split; [|split]]].
  - intros raw. apply validatedPreset_enumerated.
  - intros s Hs. simpl. unfold validatedPreset.
    apply includes_JStr in Hs. by rewrite Hs.
  - apply presetOrDefault_other.
  - reflexivity.
  - intros cwd join E source raw w Hout. unfold handler.
    cbn beta iota zeta delta [preset code].
    rewrite (presetOrDefault_other raw Hout). reflexivity.
Qed.

(** The same, run: a tier outside the table is served as ["Strong"]. *)
Lemma tier_normalisation_witness :
  validatedPreset (presetOrDefault (JStr "bogus")) = "Strong" /\
  handler "/srv" posix_join (demo_env "u1" "return 1")
          (mkBody (JStr "print(1)") (JStr "bogus"))
          (mkWorld ∅ ∅ (Some "lua")) =
  handler "/srv" posix_join (demo_env "u1" "return 1")
          (mkBody (JStr "print(1)") (JStr "Strong"))
          (mkWorld ∅ ∅ (Some "lua")).
Proof.
  destruct tier_normalisation_total_with_default as (_ & _ & H3 & _ & H5).
  assert (Hout : forall s, s ∈ VALID_PRESETS -> JStr "bogus" <> JStr s).
  { intros s Hs Heq. injection Heq as <-. apply includes_JStr in Hs.
    vm_compute in Hs. discriminate. }
  split; [apply H3, Hout | apply H5, Hout].
Defined.

(** ** The table of presets *)

(** C3: in [PRESET_MAP] the two strongest tiers, ["Strong"] and ["Maximum"],
    have the same preset of the tool, and the table is one-to-one on
    ["Weak"] and ["Medium"], whose presets also differ from that of the two
    strongest. *)
Theorem PRESET_MAP_collapses_the_two_strongest :
  PRESET_MAP !! "Strong" = PRESET_MAP !! "Maximum" /\
  PRESET_MAP !! "Maximum" = Some "Strong" /\
  PRESET_MAP !! "Weak" = Some "Weak" /\
  PRESET_MAP !! "Medium" = Some "Medium" /\
  (forall a b : string, a ∈ ["Weak"; "Medium"] -> b ∈ ["Weak"; "Medium"] ->
     PRESET_MAP !! a = PRESET_MAP !! b -> a = b) /\
  (forall a : string, a ∈ ["Weak"; "Medium"] ->
     PRESET_MAP !! a <> PRESET_MAP !! "Strong").
Proof.
  do 4 (split; [reflexivity|]). split.
  - intros a b Ha Hb. set_unfold in Ha. set_unfold in Hb.
    destruct Ha as [->|[->|[]]], Hb as [->|[->|[]]]; vm_compute; congruence.
  - intros a Ha. set_unfold in Ha.
    destruct Ha as [->|[->|[]]]; vm_compute; congruence.
Qed.

Lemma PRESET_MAP_witness :
  PRESET_MAP !! "Weak" <> PRESET_MAP !! "Strong".
Proof.
  destruct PRESET_MAP_collapses_the_two_strongest as (_ & _ & _ & _ & _ & H).
  apply H. set_solver.
Defined.

(** ** Rejection of a request without source text *)

Lemma rejected_false_inv (c : JsValue) :
  rejected c = false -> exists s, c = JStr s /\ s <> EmptyString.
Proof.
  unfold rejected. destruct c as [| |b|n|s| |]; simpl;
    rewrite ?orb_true_r, ?orb_false_r; try discriminate.
  intros H. exists s. split; [reflexivity|].
  intros ->. discriminate.
Qed.

Lemma rejected_true (c : JsValue) :
  c = JStr EmptyString \/ typeof c <> "string" -> rejected c = true.
Proof.
  intros [->|Htype]; [reflexivity|].
  unfold rejected. destruct c; simpl in *; rewrite ?orb_true_r; auto.
Qed.

(** C4: a request whose source text is the empty string or is not a string
    is answered at once with the failure of status 400; nothing else
    happens: no effect is performed, so no scratch file is written, and the
    world is as it was. *)
Theorem empty_or_non_text_rejected_before_allocation
    (cwd : string) (join : list string -> string) (E : Env) (body : Body)
    (w : World) :
  code body = JStr EmptyString \/ typeof (code body) <> "string" ->
  handler cwd join E body w =
  (Ok (mkResponse 400
         (Failure "No code provided. Please enter Lua code to obfuscate.")),
   w, []).
Proof.
  intros H. unfold handler. rewrite (rejected_true _ H). reflexivity.
Qed.

Lemma empty_source_rejected_witness :
  handler "/srv" posix_join (demo_env "u1" "return 1")
          (mkBody (JStr EmptyString) (JStr "Weak")) (boot ∅ ∅) =
  (Ok (mkResponse 400
         (Failure "No code provided. Please enter Lua code to obfuscate.")),
   boot ∅ ∅, []).
Proof.
  apply empty_or_non_text_rejected_before_allocation.
  left. reflexivity.
Defined.

(** ** The scratch directory *)

(** C8, as the claim has it, fails: [mkdir] is refused for a reason that has
    nothing to do with an existing directory, and [ensureTempDir] returns
    normally all the same, leaving no directory behind. *)
Lemma ensureTempDir_swallows_unrelated_error :
  mkdir_error readonly_env (TEMP_DIR "/srv" posix_join) =
    Some (Error "EACCES: permission denied, mkdir") /\
  result (ensureTempDir "/srv" posix_join readonly_env (boot ∅ ∅)) = Ok tt /\
  dirs (final (ensureTempDir "/srv" posix_join readonly_env (boot ∅ ∅))) = ∅.
Proof. repeat split. Qed.

(** C8, amended: [ensureTempDir] never fails, whatever error the creation of
    the directory raises; it attempts the creation once; the directory is
    there afterwards unless the creation was refused; and running it again
    changes nothing more. *)
Theorem ensureTempDir_never_fails_and_idempotent
    (cwd : string) (join : list string -> string) (E : Env) (w : World) :
  result (ensureTempDir cwd join E w) = Ok tt /\
  trace (ensureTempDir cwd join E w) = [EMkdir (TEMP_DIR cwd join)] /\
  final (ensureTempDir cwd join E w) =
    match mkdir_error E (TEMP_DIR cwd join) with
    | Some _ => w
    | None => set_dirs ({[TEMP_DIR cwd join]} ∪ dirs w) w
    end /\
  final (ensureTempDir cwd join E (final (ensureTempDir cwd join E w))) =
    final (ensureTempDir cwd join E w).
Proof.
  unfold ensureTempDir, try_catch, mkdir, ret, result, final, trace.
  destruct (mkdir_error E (TEMP_DIR cwd join)) as [e|] eqn:Herr; simpl;
    rewrite ?Herr; simpl; repeat split.
  unfold set_dirs. simpl. f_equal.
  by rewrite (assoc_L (∪)), (idemp_L (∪)).
Qed.

(** ** The resolver *)

Lemma probe_resolves (E : Env) (paths : list string) (after : M string) :
  Forall (fun path => path <> EmptyString /\
                      path +:+ " -v" ∈ resolver_commands) paths ->
  resolves after -> resolves (probe E paths after).
Proof.
  intros Hpaths Hafter. induction Hpaths as [|path rest [Hne Hin] _ IH].
  - exact Hafter.
  - intros w. simpl. unfold try_catch, bind, execAsync, ret.
    destruct (shell E (path +:+ " -v") (mkOptions 5000 None) (files w))
      as [[e|stdout] fs].
    + destruct (IH (set_files fs w)) as (r & w' & t & Hrun & Hc & Hd & Ht & Hr).
      rewrite Hrun. exists r, w', (EExec (path +:+ " -v") :: t).
      repeat split; auto. constructor; [by exists (path +:+ " -v") | exact Ht].
    + exists (Ok path), (set_files fs w), [EExec (path +:+ " -v")].
      repeat split; auto. repeat constructor. by exists (path +:+ " -v").
Qed.

Lemma findLuaPath_resolves (E : Env) : resolves (findLuaPath E).
Proof.
  unfold findLuaPath. apply probe_resolves.
  - unfold possiblePaths, resolver_commands.
    repeat constructor; try discriminate; simpl; set_unfold; tauto.
  - intros w. unfold try_catch, bind, execAsync, ret, throw.
    destruct (shell E find_command (mkOptions 10000 None) (files w))
      as [[e|stdout] fs]; simpl.
    + exists (Throw (Error not_found)), (set_files fs w), [EExec find_command].
      repeat split; auto. repeat constructor. exists find_command.
      split; [reflexivity|]. unfold resolver_commands. set_unfold. tauto.
    + destruct (String.eqb_spec (trim stdout) EmptyString) as [Hempty|Hfound];
        simpl.
      * exists (Throw (Error not_found)), (set_files fs w),
          [EExec find_command].
        repeat split; auto. repeat constructor. exists find_command.
        split; [reflexivity|]. unfold resolver_commands. set_unfold. tauto.
      * exists (Ok (trim stdout)), (set_files fs w), [EExec find_command].
        repeat split; auto. repeat constructor. exists find_command.
        split; [reflexivity|]. unfold resolver_commands. set_unfold. tauto.
Qed.

Lemma ensureLua_cached (E : Env) (w : World) :
  falsy_path (cachedLuaPath w) = false -> ensureLua E w = (Ok None, w, []).
Proof.
  intros H. unfold ensureLua, bind, get_cachedLuaPath. rewrite H. reflexivity.
Qed.

Lemma ensureLua_empty (E : Env) (w : World) :
  falsy_path (cachedLuaPath w) = true ->
  ensureLua E w =
  match findLuaPath E w with
  | (Ok path, w1, t) => (Ok None, set_cachedLuaPath (Some path) w1, t)
  | (Throw e, w1, t) =>
      (Ok (Some (mkResponse 500
         (Failure (str_or (message e) "Lua interpreter not found.")))), w1, t)
  end.
Proof.
  intros H. unfold ensureLua, bind, get_cachedLuaPath, try_catch. rewrite H.
  unfold assign_cachedLuaPath, ret.
  destruct (findLuaPath E w) as [[[path|e] w1] t]; simpl;
    by rewrite ?app_nil_r.
Qed.

(** However [ensureLua] ends, it does not throw, it performs nothing but
    commands of the resolver, and the cache it leaves is never the empty
    string. *)
Lemma ensureLua_spec (E : Env) (w : World) :
  exists early w1 t1,
    ensureLua E w = (Ok early, w1, t1) /\
    Forall resolver_event t1 /\
    (falsy_path (cachedLuaPath w) = false -> w1 = w /\ t1 = [] /\ early = None) /\
    (early = None -> falsy_path (cachedLuaPath w1) = false) /\
    (forall response, early = Some response ->
       status response = 500 /\ cachedLuaPath w1 = cachedLuaPath w /\
       falsy_path (cachedLuaPath w) = true).
Proof.
  destruct (falsy_path (cachedLuaPath w)) eqn:Hfalsy.
  - rewrite (ensureLua_empty E w Hfalsy).
    destruct (findLuaPath_resolves E w) as (r & w1 & t & Hrun & Hc & _ & Ht & Hr).
    rewrite Hrun. destruct r as [path|e].
    + exists None, (set_cachedLuaPath (Some path) w1), t.
      repeat split; auto; try discriminate.
      intros _. simpl. by apply String.eqb_neq.
    + eexists _, w1, t. split_and!; auto; try discriminate.
      intros response [= <-]. auto.
  - rewrite (ensureLua_cached E w Hfalsy). exists None, w, [].
    repeat split; auto; discriminate.
Qed.

(** ** Release of the scratch files *)

Lemma release_spec (E : Env) (i o : string) (w : World) :
  exists w' t,
    release E i o w = (Ok tt, w', t) /\
    cachedLuaPath w' = cachedLuaPath w /\
    dirs w' = dirs w /\
    (t = [EUnlink i] \/ t = [EUnlink i; EUnlink o]) /\
    (files w !! i = None -> w' = w /\ t = [EUnlink i]) /\
    (forall e, is_Some (files w !! i) -> unlink_error E i = Some e ->
       w' = w /\ t = [EUnlink i]) /\
    (is_Some (files w !! i) -> unlink_error E i = None ->
       t = [EUnlink i; EUnlink o] /\ files w' !! i = None /\
       (unlink_error E o = None -> files w' !! o = None)).
Proof.
  unfold release, try_catch, bind, unlink, ret.
  destruct (files w !! i) as [data|] eqn:Hi.
  2: { exists w, [EUnlink i]. repeat split; auto.
       all: intros; exfalso; by eapply is_Some_None. }
  destruct (unlink_error E i) as [e|] eqn:Hei.
  { exists w, [EUnlink i]. repeat split; auto; try discriminate. }
  simpl.
  destruct (delete i (files w) !! o) as [data'|] eqn:Ho.
  2: { eexists _, [EUnlink i; EUnlink o]. repeat split; auto; try discriminate.
       - simpl. apply lookup_delete_eq. }
  destruct (unlink_error E o) as [e|] eqn:Heo.
  { eexists _, [EUnlink i; EUnlink o]. repeat split; auto; try discriminate.
    simpl. apply lookup_delete_eq. }
  eexists _, [EUnlink i; EUnlink o]. repeat split; auto; try discriminate.
  - simpl. rewrite lookup_delete, lookup_delete. by repeat case_decide.
  - intros _. simpl. apply lookup_delete_eq.
Qed.

Lemma release_clears (E : Env) (i o : string) (w w' : World) (t : list Event) :
  release E i o w = (Ok tt, w', t) ->
  (forall p, unlink_error E p = None) ->
  (files w !! i = None -> files w !! o = None) ->
  files w' !! i = None /\ files w' !! o = None.
Proof.
  intros Hrun Htidy Hpre.
  destruct (release_spec E i o w) as (w2 & t2 & Hrel & _ & _ & _ & Hno & _ & Hyes).
  rewrite Hrun in Hrel. injection Hrel as <- <-.
  destruct (files w !! i) as [data|] eqn:Hi.
  - destruct Hyes as (_ & Hci & Hco); eauto.
  - destruct Hno as [-> _]; auto.
Qed.

(** ** The job, from the drawing of its identifier to its response *)

Lemma obfuscate_spec (cwd : string) (join : list string -> string) (E : Env)
    (source tier : string) (w : World) :
  let i := inputFile cwd join (uuid E) in
  let o := outputFile cwd join (uuid E) in
  let cmd := command cwd join (cachedLuaPath w)
               (opt_or (PRESET_MAP !! tier) "Strong") i in
  let ran := shell E cmd tool_options (<[i := source]> (files w)) in
  exists response w' t2,
    obfuscate cwd join E source tier w =
      (Ok response, w', EUuid :: EWrite i source :: t2) /\
    cachedLuaPath w' = cachedLuaPath w /\
    writes t2 = [] /\
    (execs t2 = [] \/ exists rest, t2 = EExec cmd :: rest /\ execs rest = []) /\
    (unlinks t2 = [i] \/ unlinks t2 = [i; o]) /\
    (forall text used, json response = Success text used ->
       used = tier /\ status response = 200 /\
       write_error E i source = None /\
       (exists stdout, ran.1 = inr stdout) /\
       exists data, ran.2 !! o = Some data /\ text = utf8_decode E data) /\
    ((forall p, unlink_error E p = None) ->
     (forall c opts fs, is_Some (fs !! i) ->
                        is_Some ((shell E c opts fs).2 !! i)) ->
     files w !! o = None ->
     files w' !! i = None /\ files w' !! o = None).
Proof.
  intros i o cmd ran.
  unfold obfuscate, bind, try_catch, randomUUID, writeFile,
    get_cachedLuaPath, execAsync, readFile, console, ret.
  fold i o.
  destruct (write_error E i source) as [[e [partial|]]|] eqn:Hwrite.
  - (* the write failed and left a truncated file *)
    destruct (release_spec E i o (set_files (<[i:=partial]> (files w)) w))
      as (w' & t & Hrel & Hc & _ & Ht & _).
    rewrite Hrel. simpl. eexists _, w', _. split; [reflexivity|].
    split_and!; auto; try discriminate.
    + split_trace Ht.
    + left. split_trace Ht.
    + split_trace Ht.
    + intros Htidy _ _. apply (release_clears _ _ _ _ _ _ Hrel Htidy).
      simpl. by rewrite lookup_insert_eq.
  - (* the write failed and left nothing *)
    destruct (release_spec E i o w) as (w' & t & Hrel & Hc & _ & Ht & _).
    rewrite Hrel. simpl. eexists _, w', _. split; [reflexivity|].
    split_and!; auto; try discriminate.
    + split_trace Ht.
    + left. split_trace Ht.
    + split_trace Ht.
    + intros Htidy _ Hfresh. apply (release_clears _ _ _ _ _ _ Hrel Htidy).
      auto.
  - simpl. fold cmd tool_options ran.
    set (w1 := set_files (<[i:=source]> (files w)) w).
    assert (Hkept : (forall c opts fs, is_Some (fs !! i) ->
                        is_Some ((shell E c opts fs).2 !! i)) ->
                    is_Some (ran.2 !! i)).
    { intros Hkeep. apply Hkeep. rewrite lookup_insert_eq. eauto. }
    destruct ran as [[e|stdout] fs] eqn:Hran; simpl in *.
    + (* the tool failed *)
      destruct (release_spec E i o (set_files fs w1))
        as (w' & t & Hrel & Hc & _ & Ht & _).
      rewrite Hrel. simpl. eexists _, w', _. split; [reflexivity|].
      split_and!; auto; try discriminate.
      * split_trace Ht.
      * right. eexists. split; [reflexivity|]. split_trace Ht.
      * split_trace Ht.
      * intros Htidy Hkeep _.
        apply (release_clears _ _ _ _ _ _ Hrel Htidy). kept_input Hkept Hkeep.
    + destruct (fs !! o) as [text|] eqn:Hout; [
        destruct (read_error E o) as [e|] eqn:Hread |].
      * (* the output is there and cannot be read *)
        destruct (release_spec E i o (set_files fs w1))
          as (w' & t & Hrel & Hc & _ & Ht & _).
        rewrite Hrel. simpl. eexists _, w', _. split; [reflexivity|].
        split_and!; auto; try discriminate.
        -- split_trace Ht.
        -- right. eexists. split; [reflexivity|]. split_trace Ht.
        -- split_trace Ht.
        -- intros Htidy Hkeep _.
           apply (release_clears _ _ _ _ _ _ Hrel Htidy).
           kept_input Hkept Hkeep.
      * (* success *)
        destruct (release_spec E i o (set_files fs w1))
          as (w' & t & Hrel & Hc & _ & Ht & _).
        rewrite Hrel. simpl. eexists _, w', _. split; [reflexivity|].
        split_and!; auto.
        -- split_trace Ht.
        -- right. eexists. split; [reflexivity|]. split_trace Ht.
        -- rewrite app_nil_r. split_trace Ht.
        -- intros text' used [= <- <-]. split_and!; eauto.
        -- intros Htidy Hkeep _.
           apply (release_clears _ _ _ _ _ _ Hrel Htidy).
           kept_input Hkept Hkeep.
      * (* the tool reported success and wrote no output *)
        destruct (release_spec E i o (set_files fs w1))
          as (w' & t & Hrel & Hc & _ & Ht & _).
        rewrite Hrel. simpl. eexists _, w', _. split; [reflexivity|].
        split_and!; auto; try discriminate.
        -- split_trace Ht.
        -- right. eexists. split; [reflexivity|]. split_trace Ht.
        -- split_trace Ht.
        -- intros Htidy Hkeep _.
           apply (release_clears _ _ _ _ _ _ Hrel Htidy).
           kept_input Hkept Hkeep.
Qed.

Lemma resolver_trace_inert (t : list Event) :
  Forall resolver_event t ->
  unlinks t = [] /\ writes t = [] /\ (EUuid ∉ t) /\
  (forall c, c ∈ execs t -> c ∈ resolver_commands).
Proof.
  induction 1 as [|e t (c & -> & Hc) _ (IHu & IHw & IHi & IHe)]; simpl.
  - split_and!; auto; [apply not_elem_of_nil | intros c Hc; inversion Hc].
  - split_and!; auto.
    + rewrite not_elem_of_cons. split; [discriminate | exact IHi].
    + intros c'. unfold execs. simpl. rewrite elem_of_cons.
      intros [->|Hin]; auto.
Qed.

(** The handler, once the source text is accepted: the resolver stage, then
    the job. *)
Lemma handler_accepted (cwd : string) (join : list string -> string)
    (E : Env) (body : Body) (w : World) :
  rejected (code body) = false ->
  exists early w1 t1 response w' t2,
    ensureLua E w = (Ok early, w1, t1) /\
    handler cwd join E body w = (Ok response, w', t1 ++ t2) /\
    match early with
    | Some failure => response = failure /\ w' = w1 /\ t2 = []
    | None =>
        obfuscate cwd join E (as_string (code body))
          (validatedPreset (presetOrDefault (preset body))) w1 =
        (Ok response, w', t2)
    end.
Proof.
  intros Hok. unfold handler, bind. rewrite Hok.
  destruct (ensureLua_spec E w) as (early & w1 & t1 & Hrun & _).
  rewrite Hrun. exists early, w1, t1. destruct early as [failure|].
  - exists failure, w1, []. auto.
  - destruct (obfuscate_spec cwd join E (as_string (code body))
                (validatedPreset (presetOrDefault (preset body))) w1)
      as (response & w' & t2 & Hjob & _).
    rewrite Hjob. eauto 10.
Qed.

(** ** Release on every exit of an allocated job *)

(** C1, as the claim has it, fails.  A job that fails because no
    interpreter is found ends without a single deletion being attempted: the
    release is run zero times, not once.  And a job whose release is run may
    still leave a scratch file behind: here the deletion of the output is
    refused, the error is dropped and the output is there after the handler
    has returned. *)
Lemma release_not_on_every_exit_nor_always_effective :
  let lost := handler "/srv" posix_join (dead_env "u1")
                (mkBody (JStr "print(1)") (JStr "Weak")) (boot ∅ ∅) in
  let kept := handler "/srv" posix_join
                (busy_env "u1" "return 1" (outputFile "/srv" posix_join "u1"))
                (mkBody (JStr "print(1)") (JStr "Weak"))
                (mkWorld ∅ ∅ (Some "lua")) in
  (result lost =
     Ok (mkResponse 500 (Failure
       "Lua interpreter not found. Please ensure Lua 5.1 is installed.")) /\
   unlinks (trace lost) = []) /\
  (result kept = Ok (mkResponse 200 (Success "return 1" "Weak")) /\
   unlinks (trace kept) = [inputFile "/srv" posix_join "u1";
                           outputFile "/srv" posix_join "u1"] /\
   files (final kept) !! outputFile "/srv" posix_join "u1" = Some "return 1").
Proof. vm_compute. repeat split. Qed.

(** C1, amended: the handler never throws, and a job whose source text is
    accepted either stops at the resolver, with nothing deleted because
    nothing was allocated, or runs the release exactly once after its
    identifier was drawn, whatever the step that failed: one attempt to
    delete the input, followed by at most one attempt to delete the output.
    When no deletion is refused, the tool leaves the input where it is and
    the output path was unused at allocation, neither path is there once
    the handler has returned. *)
Theorem release_once_per_allocated_job
    (cwd : string) (join : list string -> string) (E : Env) (body : Body)
    (w : World) :
  rejected (code body) = false ->
  let i := inputFile cwd join (uuid E) in
  let o := outputFile cwd join (uuid E) in
  exists early w1 t1 response w' t2,
    ensureLua E w = (Ok early, w1, t1) /\
    handler cwd join E body w = (Ok response, w', t1 ++ t2) /\
    unlinks t1 = [] /\
    match early with
    | Some _ => t2 = [] /\ w' = w1
    | None =>
        (unlinks t2 = [i] \/ unlinks t2 = [i; o]) /\
        ((forall p, unlink_error E p = None) ->
         (forall c opts fs, is_Some (fs !! i) ->
                            is_Some ((shell E c opts fs).2 !! i)) ->
         files w1 !! o = None ->
         files w' !! i = None /\ files w' !! o = None)
    end.
Proof.
  intros Hok i o.
  destruct (handler_accepted cwd join E body w Hok)
    as (early & w1 & t1 & response & w' & t2 & Hlua & Hrun & Hrest).
  exists early, w1, t1, response, w', t2. split_and!; auto.
  - destruct (ensureLua_spec E w) as (? & ? & ? & Hlua' & Ht1 & _).
    rewrite Hlua in Hlua'. injection Hlua' as <- <- <-.
    by apply resolver_trace_inert.
  - destruct early as [failure|]; [tauto|].
    destruct (obfuscate_spec cwd join E (as_string (code body))
                (validatedPreset (presetOrDefault (preset body))) w1)
      as (response' & w'' & t2' & Hjob & _ & _ & _ & Hunlinks & _ & Hclear).
    rewrite Hrest in Hjob. injection Hjob as -> -> ->.
    split; [|exact Hclear].
    destruct Hunlinks as [Hu|Hu]; [left | right]; exact Hu.
Qed.

Lemma demo_shell_keeps (id artifact i c : string) (opts : ExecOptions)
    (fs : gmap string string) :
  is_Some (fs !! i) -> is_Some ((demo_shell id artifact c opts fs).2 !! i).
Proof.
  intros Hi. unfold demo_shell.
  destruct (String.prefix "cd " c); [|by destruct (String.eqb c "lua -v")].
  simpl. rewrite lookup_insert. by case_decide.
Qed.

Lemma release_once_witness :
  exists response w',
    result (handler "/srv" posix_join (demo_env "u1" "return 1")
              (mkBody (JStr "print(1)") (JStr "Weak"))
              (mkWorld ∅ ∅ (Some "lua"))) = Ok response /\
    final (handler "/srv" posix_join (demo_env "u1" "return 1")
              (mkBody (JStr "print(1)") (JStr "Weak"))
              (mkWorld ∅ ∅ (Some "lua"))) = w' /\
    files w' !! inputFile "/srv" posix_join "u1" = None /\
    files w' !! outputFile "/srv" posix_join "u1" = None.
Proof.
  destruct (release_once_per_allocated_job "/srv" posix_join
              (demo_env "u1" "return 1")
              (mkBody (JStr "print(1)") (JStr "Weak"))
              (mkWorld ∅ ∅ (Some "lua")) eq_refl)
    as (early & w1 & t1 & response & w' & t2 & Hlua & Hrun & _ & Hrest).
  rewrite ensureLua_cached in Hlua by reflexivity.
  injection Hlua as <- <- <-.
  exists response, w'. rewrite Hrun. split_and!; try reflexivity.
  all: apply Hrest; try reflexivity; intros; by apply demo_shell_keeps.
Defined.

(** ** Order of the steps *)

(** C5, as the claim has it, fails: the interpreter is resolved before the
    workspace is allocated.  When the resolver fails, the handler has run
    the commands of the resolver and nothing else: no identifier was drawn,
    no file written, and no deletion attempted.  When the resolver has to
    run and succeeds, its probe comes before the identifier is drawn and the
    input is written. *)
Lemma resolution_failure_allocates_nothing :
  let lost := handler "/srv" posix_join (dead_env "u1")
                (mkBody (JStr "print(1)") (JStr "Weak")) (boot ∅ ∅) in
  let served := handler "/srv" posix_join (demo_env "u1" "return 1")
                  (mkBody (JStr "print(1)") (JStr "Weak")) (boot ∅ ∅) in
  (result lost =
     Ok (mkResponse 500 (Failure
       "Lua interpreter not found. Please ensure Lua 5.1 is installed.")) /\
   trace lost = map EExec resolver_commands /\
   writes (trace lost) = [] /\ unlinks (trace lost) = [] /\
   files (final lost) = ∅) /\
  trace served =
    [EExec "lua -v"; EUuid;
     EWrite (inputFile "/srv" posix_join "u1") "print(1)";
     EExec (command "/srv" posix_join (Some "lua") "Weak"
              (inputFile "/srv" posix_join "u1"));
     ERead (outputFile "/srv" posix_join "u1");
     EUnlink (inputFile "/srv" posix_join "u1");
     EUnlink (outputFile "/srv" posix_join "u1")].
Proof. vm_compute. repeat split. Qed.

(** C5, amended: in every job whose source text is accepted the steps come
    in this order: the tier is normalised (a pure step), the interpreter is
    taken from the cache or resolved, which performs nothing but commands of
    the resolver; only then is the identifier drawn and the source text
    written to the input path; and then, if at all, the tool is run once, on
    the command line built from the cached path and the preset of the
    normalised tier.  When the resolver fails, the handler answers with
    status 500 and stops there: nothing has been allocated and there is
    nothing to release. *)
Theorem resolution_precedes_allocation
    (cwd : string) (join : list string -> string) (E : Env) (body : Body)
    (w : World) :
  rejected (code body) = false ->
  let tier := validatedPreset (presetOrDefault (preset body)) in
  let i := inputFile cwd join (uuid E) in
  let o := outputFile cwd join (uuid E) in
  exists early w1 t1 response w' t2,
    ensureLua E w = (Ok early, w1, t1) /\
    handler cwd join E body w = (Ok response, w', t1 ++ t2) /\
    Forall resolver_event t1 /\
    writes t1 = [] /\ unlinks t1 = [] /\ (EUuid ∉ t1) /\
    match early with
    | Some failure =>
        response = failure /\ status failure = 500 /\ t2 = [] /\ w' = w1
    | None =>
        let cmd := command cwd join (cachedLuaPath w1)
                     (opt_or (PRESET_MAP !! tier) "Strong") i in
        exists rest,
          t2 = EUuid :: EWrite i (as_string (code body)) :: rest /\
          writes rest = [] /\
          (execs rest = [] \/
           exists rest', rest = EExec cmd :: rest' /\ execs rest' = []) /\
          (unlinks rest = [i] \/ unlinks rest = [i; o])
    end.
Proof.
  intros Hok tier i o.
  destruct (handler_accepted cwd join E body w Hok)
    as (early & w1 & t1 & response & w' & t2 & Hlua & Hrun & Hrest).
  destruct (ensureLua_spec E w)
    as (early' & w1' & t1' & Hlua' & Ht1 & _ & _ & Hfail).
  rewrite Hlua in Hlua'. injection Hlua' as <- <- <-.
  destruct (resolver_trace_inert t1 Ht1) as (Hu & Hw & Hi & _).
  exists early, w1, t1, response, w', t2. split_and!; auto.
  destruct early as [failure|].
  - destruct Hrest as (-> & -> & ->).
    destruct (Hfail failure eq_refl) as (Hstatus & _). auto.
  - destruct (obfuscate_spec cwd join E (as_string (code body)) tier w1)
      as (response' & w'' & rest & Hjob & _ & Hwrites & Hexecs & Hunlinks & _).
    fold tier in Hrest. rewrite Hrest in Hjob. injection Hjob as -> -> ->.
    exists rest. auto.
Qed.

Lemma resolution_precedes_allocation_witness :
  exists rest,
    trace (handler "/srv" posix_join (demo_env "u1" "return 1")
             (mkBody (JStr "print(1)") (JStr "Maximum")) (boot ∅ ∅)) =
    EExec "lua -v" :: EUuid ::
    EWrite (inputFile "/srv" posix_join "u1") "print(1)" :: rest.
Proof.
  destruct (resolution_precedes_allocation "/srv" posix_join
              (demo_env "u1" "return 1")
              (mkBody (JStr "print(1)") (JStr "Maximum")) (boot ∅ ∅) eq_refl)
    as (early & w1 & t1 & response & w' & t2 & Hlua & Hrun & _ & _ & _ & _
        & Hrest).
  vm_compute in Hlua. injection Hlua as <- <- <-.
  destruct Hrest as (rest & -> & _). exists rest. by rewrite Hrun.
Defined.

(** ** Release is one sequence, not two independent deletions *)

(** Whenever the deletion of the input throws, because the file is not
    there or because the file system refuses, the release ends there: the
    error is dropped, the world is as it was and the output has not been
    touched. *)
Lemma release_stops_at_first_failure (E : Env) (i o : string) (w : World) :
  files w !! i = None \/ is_Some (unlink_error E i) ->
  release E i o w = (Ok tt, w, [EUnlink i]).
Proof.
  intros Hfail. unfold release, try_catch, bind, unlink, ret.
  destruct (files w !! i) as [data|]; [|reflexivity].
  destruct Hfail as [Habsent|[e He]]; [discriminate|].
  rewrite He. reflexivity.
Qed.

(** C6: the claim wants the two deletions independent of each other.  In
    the code they stand in one [try] block, so the output is deleted only
    after the input was.  Here the job succeeds, the deletion of the input
    is refused, and the deletion of the output is never attempted: the
    response is the success all the same, and the output stays where it
    is. *)
Theorem output_not_released_when_input_deletion_fails :
  let run := handler "/srv" posix_join
               (busy_env "u1" "return 1" (inputFile "/srv" posix_join "u1"))
               (mkBody (JStr "print(1)") (JStr "Weak"))
               (mkWorld ∅ ∅ (Some "lua")) in
  result run = Ok (mkResponse 200 (Success "return 1" "Weak")) /\
  unlinks (trace run) = [inputFile "/srv" posix_join "u1"] /\
  files (final run) !! outputFile "/srv" posix_join "u1" = Some "return 1" /\
  files (final run) !! inputFile "/srv" posix_join "u1" = Some "print(1)".
Proof. vm_compute. repeat split. Qed.

(** ** The interpreter cache *)

Lemma ensureTempDir_run (cwd : string) (join : list string -> string)
    (E : Env) (w : World) :
  exists w0,
    ensureTempDir cwd join E w = (Ok tt, w0, [EMkdir (TEMP_DIR cwd join)]) /\
    cachedLuaPath w0 = cachedLuaPath w /\ files w0 = files w.
Proof.
  unfold ensureTempDir, try_catch, mkdir, ret.
  destruct (mkdir_error E (TEMP_DIR cwd join)); eexists; split_and!;
    reflexivity.
Qed.

Lemma registerRoutes_cache (cwd : string) (join : list string -> string)
    (E : Env) (w : World) :
  cachedLuaPath (final (registerRoutes cwd join E w)) =
  match result (findLuaPath E (final (ensureTempDir cwd join E w))) with
  | Ok path => Some path
  | Throw _ => cachedLuaPath w
  end.
Proof.
  destruct (ensureTempDir_run cwd join E w) as (w0 & Hdir & Hc & _).
  unfold registerRoutes, bind, try_catch. rewrite Hdir.
  destruct (findLuaPath_resolves E w0) as (r & w1 & t & Hrun & Hc1 & _).
  unfold final at 2. simpl. rewrite Hrun.
  destruct r as [path|e]; simpl; [reflexivity | unfold final; simpl; congruence].
Qed.

Lemma command_not_resolver (cwd : string) (join : list string -> string)
    (lua : option string) (native i : string) :
  command cwd join lua native i ∉ resolver_commands.
Proof.
  unfold command, resolver_commands. simpl. set_unfold.
  intros [H|[H|[H|[H|[]]]]]; discriminate H.
Qed.

(** A request served while the cache holds a path. *)
Lemma handler_cached (cwd : string) (join : list string -> string) (E : Env)
    (body : Body) (w : World) :
  falsy_path (cachedLuaPath w) = false ->
  cachedLuaPath (final (handler cwd join E body w)) = cachedLuaPath w /\
  (forall c, c ∈ execs (trace (handler cwd join E body w)) ->
     c = command cwd join (cachedLuaPath w)
           (opt_or (PRESET_MAP !! validatedPreset
                                    (presetOrDefault (preset body))) "Strong")
           (inputFile cwd join (uuid E))).
Proof.
  intros Hcached. destruct (rejected (code body)) eqn:Hok.
  - unfold handler. rewrite Hok. split; [reflexivity|].
    intros c Hc. inversion Hc.
  - destruct (handler_accepted cwd join E body w Hok)
      as (early & w1 & t1 & response & w' & t2 & Hlua & Hrun & Hrest).
    rewrite ensureLua_cached in Hlua by assumption.
    injection Hlua as <- <- <-. rewrite Hrun. simpl in *.
    destruct (obfuscate_spec cwd join E (as_string (code body))
                (validatedPreset (presetOrDefault (preset body))) w)
      as (response' & w'' & rest & Hjob & Hc & _ & Hexecs & _).
    rewrite Hrest in Hjob. injection Hjob as -> -> ->.
    split; [exact Hc|]. unfold trace. simpl.
    destruct Hexecs as [Hnone|(rest' & -> & Hnone)].
    + rewrite Hnone. intros c Hin. inversion Hin.
    + change (execs (EExec ?c :: rest')) with (c :: execs rest').
      rewrite Hnone. intros c Hin. by apply list_elem_of_singleton in Hin.
Qed.

Lemma serve_keeps_cache (cwd : string) (join : list string -> string)
    (requests : list (Env * Body)) (w : World) :
  falsy_path (cachedLuaPath w) = false ->
  cachedLuaPath (serve cwd join requests w) = cachedLuaPath w.
Proof.
  revert w. induction requests as [|[E body] rest IH]; intros w Hcached.
  - reflexivity.
  - simpl. destruct (handler_cached cwd join E body w Hcached) as [Hkeep _].
    rewrite IH; rewrite Hkeep; auto.
Qed.

Lemma falsy_path_Some (path : string) :
  path <> EmptyString -> falsy_path (Some path) = false.
Proof. intros H. simpl. by apply String.eqb_neq. Qed.

(** C7: the cache is empty when the process starts; the start-up writes it
    if and only if its resolution succeeds; a request served while the
    cache holds a path leaves that path in the cache and runs no command of
    the resolver, and so does every sequence of requests; a request with
    source text served while the cache is empty begins by running the
    resolver again, and the cache holds the path found if that run
    succeeds and stays empty, the request being answered with status 500,
    if it fails. *)
Theorem interpreter_cache_lifecycle :
  (forall fs ds, cachedLuaPath (boot fs ds) = None) /\
  (forall cwd join E w,
     cachedLuaPath (final (registerRoutes cwd join E w)) =
     match result (findLuaPath E (final (ensureTempDir cwd join E w))) with
     | Ok path => Some path
     | Throw _ => cachedLuaPath w
     end) /\
  (forall cwd join E body w path,
     cachedLuaPath w = Some path -> path <> EmptyString ->
     cachedLuaPath (final (handler cwd join E body w)) = Some path /\
     (forall c, c ∈ execs (trace (handler cwd join E body w)) ->
        c ∉ resolver_commands)) /\
  (forall cwd join requests w path,
     cachedLuaPath w = Some path -> path <> EmptyString ->
     cachedLuaPath (serve cwd join requests w) = Some path) /\
  (forall cwd join E body w,
     cachedLuaPath w = None -> rejected (code body) = false ->
     (exists t2, trace (handler cwd join E body w) =
                 trace (findLuaPath E w) ++ t2) /\
     match result (findLuaPath E w) with
     | Ok path =>
         cachedLuaPath (final (handler cwd join E body w)) = Some path /\
         path <> EmptyString
     | Throw _ =>
         cachedLuaPath (final (handler cwd join E body w)) = None /\
         exists msg,
           result (handler cwd join E body w) =
           Ok (mkResponse 500 (Failure msg))
     end).
Proof.
  split_and!.
  - reflexivity.
  - apply registerRoutes_cache.
  - intros cwd join E body w path Hc Hne.
    destruct (handler_cached cwd join E body w) as [Hkeep Hexecs].
    { rewrite Hc. by apply falsy_path_Some. }
    split; [congruence|]. intros c Hin. rewrite (Hexecs c Hin).
    apply command_not_resolver.
  - intros cwd join requests w path Hc Hne.
    rewrite serve_keeps_cache; [exact Hc|].
    rewrite Hc. by apply falsy_path_Some.
  - intros cwd join E body w Hc Hok.
    destruct (handler_accepted cwd join E body w Hok)
      as (early & w1 & t1 & response & w' & t2 & Hlua & Hrun & Hrest).
    rewrite ensureLua_empty in Hlua by (by rewrite Hc).
    destruct (findLuaPath_resolves E w) as (r & w0 & t & Hfind & Hc0 & _ & _ & Hr).
    rewrite Hfind in *. rewrite Hrun. unfold result, final, trace. simpl.
    destruct r as [path|e]; injection Hlua as <- <- <-.
    + split; [eauto|]. split; [|exact Hr].
      destruct (obfuscate_spec cwd join E (as_string (code body))
                  (validatedPreset (presetOrDefault (preset body)))
                  (set_cachedLuaPath (Some path) w0))
        as (response' & w'' & rest & Hjob & Hkeep & _).
      rewrite Hrest in Hjob. injection Hjob as -> -> ->. exact Hkeep.
    + destruct Hrest as (-> & -> & ->). split; [eauto|].
      split; [congruence | eauto].
Qed.

Lemma interpreter_cache_witness :
  cachedLuaPath
    (serve "/srv" posix_join
       [(dead_env "u1", mkBody (JStr "print(1)") (JStr "Weak"));
        (demo_env "u2" "return 2", mkBody (JStr "print(2)") JUndefined)]
       (mkWorld ∅ ∅ (Some "lua"))) = Some "lua" /\
  cachedLuaPath
    (final (handler "/srv" posix_join (demo_env "u1" "return 1")
              (mkBody (JStr "print(1)") (JStr "Weak")) (boot ∅ ∅))) =
  Some "lua".
Proof.
  destruct interpreter_cache_lifecycle as (_ & _ & _ & Hserve & Hretry).
  split.
  - apply Hserve; [reflexivity | discriminate].
  - destruct (Hretry "/srv" posix_join (demo_env "u1" "return 1")
                (mkBody (JStr "print(1)") (JStr "Weak")) (boot ∅ ∅)
                eq_refl eq_refl) as [_ Hfound].
    vm_compute in Hfound. exact (proj1 Hfound).
Defined.

(** ** The success response *)

(** C9, as the claim has it, fails: the handler returns whatever the output
    file holds.  A tool that exits with zero and leaves an empty output file
    gives a success whose text is empty. *)
Lemma success_with_empty_text :
  result (handler "/srv" posix_join (demo_env "u1" EmptyString)
            (mkBody (JStr "print(1)") (JStr "Weak"))
            (mkWorld ∅ ∅ (Some "lua"))) =
  Ok (mkResponse 200 (Success EmptyString "Weak")).
Proof. vm_compute. reflexivity. Qed.

(** C9, amended: a success response has status 200; its text is what the
    bytes of the output file, as the tool left it, decode to as UTF-8, the
    tool having exited without error on an accepted source text; nothing
    tests that text for emptiness; and the tier it reports is the normalised
    tier of the caller, one of the four, not the preset of the tool. *)
Theorem success_returns_output_and_normalised_tier
    (cwd : string) (join : list string -> string) (E : Env) (body : Body)
    (w w' : World) (t : list Event) (response : Response)
    (text used : string) :
  handler cwd join E body w = (Ok response, w', t) ->
  json response = Success text used ->
  let i := inputFile cwd join (uuid E) in
  let o := outputFile cwd join (uuid E) in
  used = validatedPreset (presetOrDefault (preset body)) /\
  used ∈ VALID_PRESETS /\
  status response = 200 /\
  rejected (code body) = false /\
  exists w1 t1,
    ensureLua E w = (Ok None, w1, t1) /\
    let cmd := command cwd join (cachedLuaPath w1)
                 (opt_or (PRESET_MAP !! used) "Strong") i in
    let ran := shell E cmd tool_options
                 (<[i := as_string (code body)]> (files w1)) in
    (exists stdout, ran.1 = inr stdout) /\
    exists data, ran.2 !! o = Some data /\ text = utf8_decode E data.
Proof.
  intros Hrun Hjson i o.
  destruct (rejected (code body)) eqn:Hok.
  { unfold handler in Hrun. rewrite Hok in Hrun.
    injection Hrun as <- <- <-. discriminate Hjson. }
  destruct (handler_accepted cwd join E body w Hok)
    as (early & w1 & t1 & response' & w'' & t2 & Hlua & Hrun' & Hrest).
  rewrite Hrun in Hrun'. injection Hrun' as <- <- ->.
  destruct (ensureLua_spec E w)
    as (early' & w1' & t1' & Hlua' & _ & _ & _ & Hfail).
  rewrite Hlua in Hlua'. injection Hlua' as <- <- <-.
  destruct early as [failure|].
  { destruct Hrest as (-> & _). destruct (Hfail failure eq_refl) as (_ & _ & _).
    exfalso. revert Hjson. clear -Hlua.
    destruct (falsy_path (cachedLuaPath w)) eqn:Hfalsy.
    - rewrite (ensureLua_empty E w Hfalsy) in Hlua.
      destruct (findLuaPath E w) as [[[path|e] w0] t0];
        [discriminate | injection Hlua as <- _ _; discriminate].
    - rewrite (ensureLua_cached E w Hfalsy) in Hlua. discriminate. }
  destruct (obfuscate_spec cwd join E (as_string (code body))
              (validatedPreset (presetOrDefault (preset body))) w1)
    as (response' & w'' & rest & Hjob & _ & _ & _ & _ & Hsuccess & _).
  rewrite Hrest in Hjob. injection Hjob as <- <- ->.
  destruct (Hsuccess text used Hjson) as (-> & Hstatus & _ & Hexit & Hout).
  split_and!; auto.
  - apply validatedPreset_enumerated.
  - exists w1, t1. auto.
Qed.

Lemma success_reports_Maximum_witness :
  exists w1 t1,
    ensureLua (demo_env "u1" "return 1") (mkWorld ∅ ∅ (Some "lua")) =
      (Ok None, w1, t1) /\
    "Maximum" = validatedPreset (presetOrDefault (JStr "Maximum")) /\
    opt_or (PRESET_MAP !! "Maximum") "Strong" = "Strong" /\
    exists data,
      (shell (demo_env "u1" "return 1")
         (command "/srv" posix_join (cachedLuaPath w1)
            (opt_or (PRESET_MAP !! "Maximum") "Strong")
            (inputFile "/srv" posix_join "u1"))
         tool_options
         (<[inputFile "/srv" posix_join "u1" := "print(1)"]> (files w1))).2
        !! outputFile "/srv" posix_join "u1" = Some data /\
      "return 1" = utf8_decode (demo_env "u1" "return 1") data.
Proof.
  destruct (success_returns_output_and_normalised_tier "/srv" posix_join
              (demo_env "u1" "return 1")
              (mkBody (JStr "print(1)") (JStr "Maximum"))
              (mkWorld ∅ ∅ (Some "lua"))
              (mkWorld ∅ ∅ (Some "lua"))
              [EUuid;
               EWrite (inputFile "/srv" posix_join "u1") "print(1)";
               EExec (command "/srv" posix_join (Some "lua") "Strong"
                        (inputFile "/srv" posix_join "u1"));
               ERead (outputFile "/srv" posix_join "u1");
               EUnlink (inputFile "/srv" posix_join "u1");
               EUnlink (outputFile "/srv" posix_join "u1")]
              (mkResponse 200 (Success "return 1" "Maximum"))
              "return 1" "Maximum")
    as (Htier & _ & _ & _ & w1 & t1 & Hlua & _ & Hout).
  - vm_compute. reflexivity.
  - reflexivity.
  - exists w1, t1. split_and!; [exact Hlua | exact Htier | reflexivity |
                               exact Hout].
Defined.

(** The text of a success is the decoded output: a tool that leaves the one
    byte 255 gives a success whose text is U+FFFD. *)
Lemma success_text_is_decoded :
  result (handler "/srv" posix_join (binary_env "u1")
            (mkBody (JStr "print(1)") (JStr "Weak"))
            (mkWorld ∅ ∅ (Some "lua"))) =
  Ok (mkResponse 200 (Success (bytes [239; 191; 189]) "Weak")).
Proof. vm_compute. reflexivity. Qed.

(** ** The command line *)

Lemma native_preset_from_table (tier : string) :
  tier ∈ VALID_PRESETS ->
  PRESET_MAP !! tier = Some (opt_or (PRESET_MAP !! tier) "Strong").
Proof.
  unfold VALID_PRESETS. set_unfold.
  intros [->|[->|[->|[->|[]]]]]; reflexivity.
Qed.

(** C10: two requests served with the same job identifier, the same cached
    interpreter path and the same normalised tier run the same command
    line, whatever their source texts, file systems and other answers of
    the outside: the command line is built from the working directory, the
    cached path, the input path of the identifier and the entry of
    [PRESET_MAP] for the normalised tier, which is one of the four
    enumerated ones; the source text only goes into the input file. *)
Theorem command_line_independent_of_source
    (cwd : string) (join : list string -> string) (E1 E2 : Env)
    (body1 body2 : Body) (w1 w2 : World) (lua c1 c2 : string) :
  uuid E1 = uuid E2 ->
  cachedLuaPath w1 = Some lua -> cachedLuaPath w2 = Some lua ->
  lua <> EmptyString ->
  validatedPreset (presetOrDefault (preset body1)) =
  validatedPreset (presetOrDefault (preset body2)) ->
  c1 ∈ execs (trace (handler cwd join E1 body1 w1)) ->
  c2 ∈ execs (trace (handler cwd join E2 body2 w2)) ->
  c1 = c2 /\
  exists tier native,
    tier ∈ VALID_PRESETS /\ PRESET_MAP !! tier = Some native /\
    c1 = command cwd join (Some lua) native (inputFile cwd join (uuid E1)).
Proof.
  intros Hid Hc1 Hc2 Hne Htier Hin1 Hin2.
  destruct (handler_cached cwd join E1 body1 w1) as [_ Hexec1].
  { rewrite Hc1. by apply falsy_path_Some. }
  destruct (handler_cached cwd join E2 body2 w2) as [_ Hexec2].
  { rewrite Hc2. by apply falsy_path_Some. }
  rewrite (Hexec1 c1 Hin1), (Hexec2 c2 Hin2), Hc1, Hc2, Hid, Htier.
  split; [reflexivity|].
  exists (validatedPreset (presetOrDefault (preset body2))).
  eexists. split_and!; [apply validatedPreset_enumerated | | reflexivity].
  apply native_preset_from_table, validatedPreset_enumerated.
Qed.

Lemma command_line_witness :
  command "/srv" posix_join (Some "lua") "Strong"
    (inputFile "/srv" posix_join "u1") =
  command "/srv" posix_join (Some "lua") "Strong"
    (inputFile "/srv" posix_join "u1") /\
  exists tier native,
    tier ∈ VALID_PRESETS /\ PRESET_MAP !! tier = Some native /\
    command "/srv" posix_join (Some "lua") "Strong"
      (inputFile "/srv" posix_join "u1") =
    command "/srv" posix_join (Some "lua") native
      (inputFile "/srv" posix_join "u1").
Proof.
  apply (command_line_independent_of_source "/srv" posix_join
           (demo_env "u1" "return 1") (busy_env "u1" "x" "nowhere")
           (mkBody (JStr "print(1)") (JStr "Strong"))
           (mkBody (JStr "os.exit()") (JStr "bogus"))
           (mkWorld ∅ ∅ (Some "lua"))
           (mkWorld {["/srv/other" := "data"]} ∅ (Some "lua")) "lua").
  - reflexivity.
  - reflexivity.
  - reflexivity.
  - discriminate.
  - reflexivity.
  - vm_compute. apply list_elem_of_here.
  - vm_compute. apply list_elem_of_here.
Defined.

(** * Further properties of the code *)

(** ** The job, step by step *)

(** The whole run of a job: its response is the one of its verdict, and its
    effects are the drawing of the identifier, the write, the steps up to
    the first that fails, one release, and one line on the console when it
    failed.  The directories are left alone. *)
Lemma obfuscate_run (cwd : string) (join : list string -> string) (E : Env)
    (source tier : string) (w : World) :
  let i := inputFile cwd join (uuid E) in
  let o := outputFile cwd join (uuid E) in
  let cmd := command cwd join (cachedLuaPath w)
               (opt_or (PRESET_MAP !! tier) "Strong") i in
  let verdict := job_verdict E i o cmd source (files w) in
  exists w' rel,
    obfuscate cwd join E source tier w =
      (Ok (job_response tier verdict), w',
       EUuid :: EWrite i source ::
       job_steps E i o cmd source (files w) ++ rel ++ job_console verdict) /\
    dirs w' = dirs w /\
    (rel = [EUnlink i] \/ rel = [EUnlink i; EUnlink o]).
Proof.
  intros i o cmd verdict. subst verdict.
  unfold obfuscate, bind, try_catch, randomUUID, writeFile,
    get_cachedLuaPath, execAsync, readFile, console, ret,
    job_verdict, job_steps, job_response, job_console, job_failure,
    read_ENOENT.
  fold i o.
  destruct (write_error E i source) as [[e [partial|]]|] eqn:Hwrite.
  - destruct (release_spec E i o (set_files (<[i:=partial]> (files w)) w))
      as (w' & t & Hrel & _ & Hd & Ht & _).
    rewrite Hrel. simpl. exists w', t. auto.
  - destruct (release_spec E i o w) as (w' & t & Hrel & _ & Hd & Ht & _).
    rewrite Hrel. simpl. exists w', t. auto.
  - simpl. fold cmd tool_options.
    set (w1 := set_files (<[i:=source]> (files w)) w).
    destruct (shell E cmd tool_options (<[i:=source]> (files w)))
      as [[e|stdout] fs] eqn:Hran; simpl.
    + destruct (release_spec E i o (set_files fs w1))
        as (w' & t & Hrel & _ & Hd & Ht & _).
      rewrite Hrel. simpl. exists w', t. auto.
    + destruct (fs !! o) as [text|] eqn:Hout; [
        destruct (read_error E o) as [e|] eqn:Hread |];
      destruct (release_spec E i o (set_files fs w1))
        as (w' & t & Hrel & _ & Hd & Ht & _);
      rewrite Hrel; simpl; exists w', t; rewrite ?app_nil_r; auto.
Qed.

Lemma handler_run (cwd : string) (join : list string -> string) (E : Env)
    (body : Body) (w w1 : World) (t1 : list Event) :
  rejected (code body) = false ->
  ensureLua E w = (Ok None, w1, t1) ->
  let i := inputFile cwd join (uuid E) in
  let o := outputFile cwd join (uuid E) in
  let tier := validatedPreset (presetOrDefault (preset body)) in
  let source := as_string (code body) in
  let cmd := command cwd join (cachedLuaPath w1)
               (opt_or (PRESET_MAP !! tier) "Strong") i in
  let verdict := job_verdict E i o cmd source (files w1) in
  exists w' rel,
    handler cwd join E body w =
      (Ok (job_response tier verdict), w',
       t1 ++ EUuid :: EWrite i source ::
       job_steps E i o cmd source (files w1) ++ rel ++ job_console verdict) /\
    dirs w' = dirs w1 /\
    (rel = [EUnlink i] \/ rel = [EUnlink i; EUnlink o]).
Proof.
  intros Hok Hlua i o tier source cmd verdict.
  destruct (obfuscate_run cwd join E source tier w1)
    as (w' & rel & Hjob & Hd & Hrel).
  exists w', rel. split; [|auto].
  unfold handler, bind. rewrite Hok, Hlua.
  fold tier source. rewrite Hjob. reflexivity.
Qed.

Lemma ensureLua_dirs (E : Env) (w w1 : World) (early : option Response)
    (t1 : list Event) :
  ensureLua E w = (Ok early, w1, t1) -> dirs w1 = dirs w.
Proof.
  intros Hlua. destruct (falsy_path (cachedLuaPath w)) eqn:Hfalsy.
  - rewrite (ensureLua_empty E w Hfalsy) in Hlua.
    destruct (findLuaPath_resolves E w) as (r & w0 & t & Hrun & _ & Hd & _).
    rewrite Hrun in Hlua.
    destruct r; injection Hlua as <- <- <-; exact Hd.
  - rewrite (ensureLua_cached E w Hfalsy) in Hlua.
    by injection Hlua as <- <- <-.
Qed.

(** ** The response of the handler *)

(** X1: the handler never throws, whatever the request and whatever fails
    outside; its response has status 400, 500 or 200; it has status 400
    exactly when the source text is rejected, and it carries the obfuscated
    code exactly when its status is 200. *)
Theorem handler_status_classification
    (cwd : string) (join : list string -> string) (E : Env) (body : Body)
    (w : World) :
  exists response,
    result (handler cwd join E body w) = Ok response /\
    (status response = 400 \/ status response = 500 \/
     status response = 200) /\
    (status response = 400 <-> rejected (code body) = true) /\
    (status response = 200 <->
     exists text tier, json response = Success text tier).
Proof.
  destruct (rejected (code body)) eqn:Hok.
  { unfold handler. rewrite Hok. eexists. split; [reflexivity|]. simpl.
    split; [auto|]. split; [split; auto|].
    split; [discriminate | intros (text & tier & [=])]. }
  destruct (ensureLua_spec E w) as (early & w1 & t1 & Hlua & _ & _ & _ & Hfail).
  destruct early as [failure|].
  - destruct (Hfail failure eq_refl) as (Hstatus & _ & Hfalsy).
    unfold handler, bind. rewrite Hok, Hlua. simpl.
    exists failure. split; [reflexivity|]. rewrite Hstatus.
    split; [auto|]. split; [split; discriminate|].
    split; [discriminate|]. intros (text & tier & Hjson).
    rewrite (ensureLua_empty E w Hfalsy) in Hlua.
    destruct (findLuaPath E w) as [[[path|e] w0] t0]; [discriminate|].
    injection Hlua as <- _ _. discriminate Hjson.
  - destruct (handler_run cwd join E body w w1 t1 Hok Hlua)
      as (w' & rel & Hrun & _).
    rewrite Hrun. eexists. split; [reflexivity|].
    destruct (job_verdict _ _ _ _ _ _) as [e|text]; simpl.
    + split; [auto|]. split; [split; discriminate|].
      split; [discriminate | intros (text & tier & [=])].
    + split; [auto|]. split; [split; discriminate|].
      split; eauto.
Qed.

(** X2: the response of a job that reached allocation is decided by the
    first of its steps that fails, in the order write of the input, run of
    the tool, read of the output: the failure response of status 500 for
    the error of that step (a missing output file after a tool that exited
    with zero is such an error), and the success response with the text
    the bytes of the output file decode to and the normalised tier when no
    step fails.  The
    release and its errors have no part in it. *)
Theorem response_decided_by_first_failing_step
    (cwd : string) (join : list string -> string) (E : Env) (body : Body)
    (w w1 : World) (t1 : list Event) :
  rejected (code body) = false ->
  ensureLua E w = (Ok None, w1, t1) ->
  let i := inputFile cwd join (uuid E) in
  let o := outputFile cwd join (uuid E) in
  let tier := validatedPreset (presetOrDefault (preset body)) in
  let cmd := command cwd join (cachedLuaPath w1)
               (opt_or (PRESET_MAP !! tier) "Strong") i in
  result (handler cwd join E body w) =
  Ok (job_response tier
        (job_verdict E i o cmd (as_string (code body)) (files w1))).
Proof.
  intros Hok Hlua i o tier cmd.
  destruct (handler_run cwd join E body w w1 t1 Hok Hlua)
    as (w' & rel & Hrun & _).
  rewrite Hrun. reflexivity.
Qed.

Lemma response_decided_witness :
  result (handler "/srv" posix_join (dead_env "u1")
            (mkBody (JStr "print(1)") (JStr "Weak"))
            (mkWorld ∅ ∅ (Some "lua"))) =
  Ok (mkResponse 500 (Failure "Obfuscation failed: sh: 1: not found")).
Proof.
  rewrite (response_decided_by_first_failing_step "/srv" posix_join
             (dead_env "u1") (mkBody (JStr "print(1)") (JStr "Weak"))
             (mkWorld ∅ ∅ (Some "lua")) (mkWorld ∅ ∅ (Some "lua")) []
             eq_refl eq_refl).
  reflexivity.
Defined.

(** X3: the effects of a job that reached allocation, in order: the
    identifier is drawn, the source text is written to the input path, then
    come the steps up to the first that fails (the tool is not run when the
    write failed, the output is not read when the tool failed), then the
    release, and last one line on the console if and only if the job
    failed.  Nothing else is done; in particular the job is not retried. *)
Theorem job_effects_stop_at_first_failure
    (cwd : string) (join : list string -> string) (E : Env) (body : Body)
    (w w1 : World) (t1 : list Event) :
  rejected (code body) = false ->
  ensureLua E w = (Ok None, w1, t1) ->
  let i := inputFile cwd join (uuid E) in
  let o := outputFile cwd join (uuid E) in
  let tier := validatedPreset (presetOrDefault (preset body)) in
  let source := as_string (code body) in
  let cmd := command cwd join (cachedLuaPath w1)
               (opt_or (PRESET_MAP !! tier) "Strong") i in
  exists rel,
    (rel = [EUnlink i] \/ rel = [EUnlink i; EUnlink o]) /\
    trace (handler cwd join E body w) =
    t1 ++ EUuid :: EWrite i source ::
    match write_error E i source with
    | Some _ => []
    | None =>
        match (shell E cmd tool_options (<[i := source]> (files w1))).1 with
        | inl _ => [EExec cmd]
        | inr _ => [EExec cmd; ERead o]
        end
    end ++ rel ++
    match job_verdict E i o cmd source (files w1) with
    | inl _ => [EConsole "Obfuscation error:"]
    | inr _ => []
    end.
Proof.
  intros Hok Hlua i o tier source cmd.
  destruct (handler_run cwd join E body w w1 t1 Hok Hlua)
    as (w' & rel & Hrun & _ & Hrel).
  exists rel. split; [exact Hrel|]. rewrite Hrun. unfold trace. simpl.
  unfold job_steps, job_console. fold i o tier source cmd.
  destruct (write_error E i source) as [[e q]|]; [reflexivity|].
  destruct (shell E cmd tool_options (<[i:=source]> (files w1)))
    as [[e|stdout] fs]; reflexivity.
Qed.

Lemma job_effects_witness :
  exists rel,
    (rel = [EUnlink (inputFile "/srv" posix_join "u1")] \/
     rel = [EUnlink (inputFile "/srv" posix_join "u1");
            EUnlink (outputFile "/srv" posix_join "u1")]) /\
    trace (handler "/srv" posix_join (dead_env "u1")
             (mkBody (JStr "print(1)") (JStr "Weak"))
             (mkWorld ∅ ∅ (Some "lua"))) =
    [EUuid; EWrite (inputFile "/srv" posix_join "u1") "print(1)";
     EExec (command "/srv" posix_join (Some "lua") "Weak"
              (inputFile "/srv" posix_join "u1"))] ++
    rel ++ [EConsole "Obfuscation error:"].
Proof.
  destruct (job_effects_stop_at_first_failure "/srv" posix_join
              (dead_env "u1") (mkBody (JStr "print(1)") (JStr "Weak"))
              (mkWorld ∅ ∅ (Some "lua")) (mkWorld ∅ ∅ (Some "lua")) []
              eq_refl eq_refl) as (rel & Hrel & Htrace).
  exists rel. split; [exact Hrel|]. rewrite Htrace. reflexivity.
Defined.

(** X4: when the tool fails, the diagnostic of the failure response is what
    the tool wrote on its standard error; the message of the error is used
    only when that is missing or empty, and a fixed text when both are. *)
Theorem tool_failure_reports_stderr_first
    (cwd : string) (join : list string -> string) (E : Env) (body : Body)
    (w w1 : World) (t1 : list Event) (e : JsError)
    (fs : gmap string string) :
  rejected (code body) = false ->
  ensureLua E w = (Ok None, w1, t1) ->
  let i := inputFile cwd join (uuid E) in
  let tier := validatedPreset (presetOrDefault (preset body)) in
  let source := as_string (code body) in
  let cmd := command cwd join (cachedLuaPath w1)
               (opt_or (PRESET_MAP !! tier) "Strong") i in
  write_error E i source = None ->
  shell E cmd tool_options (<[i := source]> (files w1)) = (inl e, fs) ->
  exists diagnostic,
    result (handler cwd join E body w) =
      Ok (mkResponse 500 (Failure ("Obfuscation failed: " +:+ diagnostic))) /\
    (forall s, stderr e = Some s -> s <> EmptyString -> diagnostic = s) /\
    (stderr e = None \/ stderr e = Some EmptyString ->
     (message e <> EmptyString -> diagnostic = message e) /\
     (message e = EmptyString ->
      diagnostic = "Unknown error during obfuscation")).
Proof.
  intros Hok Hlua i tier source cmd Hwrite Hshell.
  destruct (handler_run cwd join E body w w1 t1 Hok Hlua)
    as (w' & rel & Hrun & _).
  rewrite Hrun. unfold job_verdict. fold i tier source cmd.
  rewrite Hwrite, Hshell. simpl. eexists. split; [reflexivity|].
  split.
  - intros s -> Hs. simpl. unfold str_or.
    by rewrite (proj2 (String.eqb_neq _ _) Hs).
  - intros Herr.
    assert (Hopt : forall b, opt_or (stderr e) b = b).
    { intros b. destruct Herr as [-> | ->]; reflexivity. }
    rewrite Hopt. unfold str_or. split.
    + intros Hm. by rewrite (proj2 (String.eqb_neq _ _) Hm).
    + intros ->. reflexivity.
Qed.

Lemma tool_failure_witness :
  result (handler "/srv" posix_join (dead_env "u1")
            (mkBody (JStr "print(1)") (JStr "Weak"))
            (mkWorld ∅ ∅ (Some "lua"))) =
  Ok (mkResponse 500 (Failure "Obfuscation failed: sh: 1: not found")).
Proof.
  destruct (tool_failure_reports_stderr_first "/srv" posix_join
              (dead_env "u1") (mkBody (JStr "print(1)") (JStr "Weak"))
              (mkWorld ∅ ∅ (Some "lua")) (mkWorld ∅ ∅ (Some "lua")) []
              (mkError "Command failed" (Some "sh: 1: not found"))
              {[inputFile "/srv" posix_join "u1" := "print(1)"]}
              eq_refl eq_refl eq_refl eq_refl)
    as (diagnostic & Hrun & Hstderr & _).
  rewrite Hrun. by rewrite (Hstderr "sh: 1: not found" eq_refl).
Defined.

(** ** What the handler leaves alone *)

Lemma resolver_trace_no_mkdir (t : list Event) (p : string) :
  Forall resolver_event t -> EMkdir p ∉ t.
Proof.
  induction 1 as [|e t (c & -> & _) _ IH].
  - apply not_elem_of_nil.
  - rewrite not_elem_of_cons. split; [discriminate | exact IH].
Qed.

Lemma handler_dirs (cwd : string) (join : list string -> string) (E : Env)
    (body : Body) (w : World) :
  dirs (final (handler cwd join E body w)) = dirs w /\
  forall p, EMkdir p ∉ trace (handler cwd join E body w).
Proof.
  destruct (rejected (code body)) eqn:Hok.
  { unfold handler. rewrite Hok. split; [reflexivity|].
    intros p. apply not_elem_of_nil. }
  destruct (ensureLua_spec E w) as (early & w1 & t1 & Hlua & Ht1 & _).
  pose proof (ensureLua_dirs E w w1 early t1 Hlua) as Hd1.
  destruct early as [failure|].
  - unfold handler, bind. rewrite Hok, Hlua. simpl. split; [exact Hd1|].
    intros p. rewrite app_nil_r. by apply resolver_trace_no_mkdir.
  - destruct (handler_run cwd join E body w w1 t1 Hok Hlua)
      as (w' & rel & Hrun & Hd & Hrel).
    rewrite Hrun. unfold final, trace. simpl. split; [congruence|].
    intros p Hin. apply elem_of_app in Hin as [Hin|Hin].
    { by apply (resolver_trace_no_mkdir t1 p). }
    rewrite !elem_of_cons, !elem_of_app in Hin.
    destruct Hin as [Hin|[Hin|[Hin|[Hin|Hin]]]]; try discriminate Hin.
    + unfold job_steps in Hin.
      destruct (write_error E _ _); [inversion Hin|].
      destruct (shell E _ _ _) as [[e|stdout] fs];
        apply list_elem_of_In in Hin; simpl in Hin; intuition discriminate.
    + destruct Hrel as [-> | ->];
        apply list_elem_of_In in Hin; simpl in Hin; intuition discriminate.
    + unfold job_console in Hin.
      destruct (job_verdict _ _ _ _ _ _);
        apply list_elem_of_In in Hin; simpl in Hin; intuition discriminate.
Qed.

(** X5: the handler never creates a directory: no run of it attempts a
    [mkdir], and the directories are after any sequence of requests what
    they were before.  A scratch directory that the start-up could not
    create is therefore never created later. *)
Theorem handler_never_creates_directory
    (cwd : string) (join : list string -> string) :
  (forall E body w p, EMkdir p ∉ trace (handler cwd join E body w)) /\
  (forall requests w, dirs (serve cwd join requests w) = dirs w).
Proof.
  split.
  - intros E body w p. by apply handler_dirs.
  - induction requests as [|[E body] rest IH]; intros w; [reflexivity|].
    simpl. rewrite IH. by apply handler_dirs.
Qed.

(** X6: resolving the interpreter inside a request is transparent: a request
    with source text served while the cache is empty, whose resolution
    finds [path], does what the resolution does and then exactly what the
    same request does when served with [path] already in the cache. *)
Theorem lazy_resolution_is_transparent
    (cwd : string) (join : list string -> string) (E : Env) (body : Body)
    (w w0 : World) (path : string) (t : list Event) :
  rejected (code body) = false ->
  falsy_path (cachedLuaPath w) = true ->
  findLuaPath E w = (Ok path, w0, t) ->
  handler cwd join E body w =
  (result (handler cwd join E body (set_cachedLuaPath (Some path) w0)),
   final (handler cwd join E body (set_cachedLuaPath (Some path) w0)),
   t ++ trace (handler cwd join E body (set_cachedLuaPath (Some path) w0))).
Proof.
  intros Hok Hfalsy Hfind.
  assert (Hne : path <> EmptyString).
  { destruct (findLuaPath_resolves E w) as (r & w' & t' & Hrun & _ & _ & _ & Hr).
    rewrite Hfind in Hrun. by injection Hrun as <- <- <-. }
  unfold handler, bind. rewrite Hok.
  rewrite (ensureLua_empty E w Hfalsy), Hfind.
  rewrite (ensureLua_cached E (set_cachedLuaPath (Some path) w0))
    by (by apply falsy_path_Some).
  destruct (obfuscate cwd join E _ _ _) as [[r w'] t2]. reflexivity.
Qed.

Lemma lazy_resolution_witness :
  trace (handler "/srv" posix_join (demo_env "u1" "return 1")
           (mkBody (JStr "print(1)") (JStr "Weak")) (boot ∅ ∅)) =
  [EExec "lua -v"] ++
  trace (handler "/srv" posix_join (demo_env "u1" "return 1")
           (mkBody (JStr "print(1)") (JStr "Weak"))
           (set_cachedLuaPath (Some "lua") (boot ∅ ∅))).
Proof.
  rewrite (lazy_resolution_is_transparent "/srv" posix_join
             (demo_env "u1" "return 1")
             (mkBody (JStr "print(1)") (JStr "Weak")) (boot ∅ ∅) (boot ∅ ∅)
             "lua" [EExec "lua -v"] eq_refl eq_refl eq_refl).
  reflexivity.
Defined.

(** ** White space *)

Lemma drop_prefix_length (p s rest : string) :
  drop_prefix p s = Some rest ->
  String.length s = String.length p + String.length rest.
Proof.
  revert s. induction p as [|a p IH]; intros [|b s] H; simpl in *;
    try discriminate; try (by injection H as <-).
  destruct (Ascii.eqb a b); [|discriminate]. by rewrite (IH s H).
Qed.

Lemma drop_any_shorter (patterns : list string) (s rest : string) :
  Forall (fun p => p <> EmptyString) patterns ->
  drop_any patterns s = Some rest ->
  String.length rest < String.length s.
Proof.
  induction 1 as [|p ps Hp _ IH]; simpl; [discriminate|].
  destruct (drop_prefix p s) as [r|] eqn:Hdrop; [|exact IH].
  intros [= ->]. apply drop_prefix_length in Hdrop.
  destruct p; [done|]. simpl in Hdrop. lia.
Qed.

(** The length of a string is fuel enough: what [strip] returns starts with
    none of the patterns. *)
Lemma strip_complete (patterns : list string) (fuel : nat) (s : string) :
  Forall (fun p => p <> EmptyString) patterns ->
  String.length s <= fuel ->
  drop_any patterns (strip patterns fuel s) = None.
Proof.
  intros Hpats. revert s. induction fuel as [|n IH]; intros s Hlen; simpl.
  - destruct s; [|simpl in Hlen; lia]. clear Hlen.
    induction Hpats as [|p ps Hp _ IHp]; simpl; [reflexivity|].
    destruct p; [done | exact IHp].
  - destruct (drop_any patterns s) as [rest|] eqn:Hdrop; [|exact Hdrop].
    apply IH. apply (drop_any_shorter _ _ _ Hpats) in Hdrop. lia.
Qed.

Lemma white_space_nonempty : Forall (fun p => p <> EmptyString) white_space.
Proof. unfold white_space. simpl. repeat constructor; discriminate. Qed.

Lemma trimStart_complete (s : string) :
  drop_any white_space (trimStart s) = None.
Proof. apply strip_complete; [apply white_space_nonempty | lia]. Qed.

(** White space of Unicode goes, at both ends; what is inside stays: a
    no-break space and a line feed trim to nothing, and [U+2028 a U+00A0 b
    U+FEFF] trims to [a U+00A0 b]. *)
Lemma trim_unicode_white_space :
  trim (bytes [194; 160; 10]) = EmptyString /\
  trim (bytes [226; 128; 168; 97; 194; 160; 98; 239; 187; 191]) =
    bytes [97; 194; 160; 98].
Proof. vm_compute. split; reflexivity. Qed.

(** ** The resolver, candidate by candidate *)

Lemma probe_first_success (E : Env) (pre : list string) (p : string)
    (post : list string) (after : M string) (w : World) :
  (forall q, q ∈ pre -> forall opts fs,
     exists e fs', shell E (q +:+ " -v") opts fs = (inl e, fs')) ->
  (forall opts fs,
     exists stdout fs', shell E (p +:+ " -v") opts fs = (inr stdout, fs')) ->
  result (probe E (pre ++ p :: post) after w) = Ok p /\
  trace (probe E (pre ++ p :: post) after w) =
    map EExec (probe_commands (pre ++ [p])).
Proof.
  intros Hfail Hgood. revert w.
  induction pre as [|q pre IH]; intros w; simpl;
    unfold try_catch, bind, execAsync, ret.
  - destruct (Hgood (mkOptions 5000 None) (files w)) as (stdout & fs' & ->).
    split; reflexivity.
  - destruct (Hfail q (list_elem_of_here _ _) (mkOptions 5000 None) (files w))
      as (e & fs' & ->).
    destruct IH with (w := set_files fs' w) as [Hr Ht].
    { intros q' Hq'. apply Hfail. by apply list_elem_of_further. }
    destruct (probe E (pre ++ p :: post) after (set_files fs' w))
      as [[r w'] t]. unfold result, trace in *. simpl in *.
    subst. split; reflexivity.
Qed.

Lemma probe_all_fail (E : Env) (paths : list string) (after : M string)
    (w : World) :
  (forall q, q ∈ paths -> forall opts fs,
     exists e fs', shell E (q +:+ " -v") opts fs = (inl e, fs')) ->
  exists w0,
    cachedLuaPath w0 = cachedLuaPath w /\
    probe E paths after w =
    (result (after w0), final (after w0),
     map EExec (probe_commands paths) ++ trace (after w0)).
Proof.
  intros Hfail. revert w.
  induction paths as [|q paths IH]; intros w; simpl.
  - exists w. split; [reflexivity|]. by destruct (after w) as [[r w'] t].
  - unfold try_catch, bind, execAsync, ret.
    destruct (Hfail q (list_elem_of_here _ _) (mkOptions 5000 None) (files w))
      as (e & fs' & ->).
    destruct IH with (w := set_files fs' w) as (w0 & Hc & ->).
    { intros q' Hq'. apply Hfail. by apply list_elem_of_further. }
    exists w0. split; [exact Hc | reflexivity].
Qed.

(** X7: [findLuaPath] returns the first of its candidates whose version
    probe succeeds, having probed the candidates before it, in order, and
    nothing after it: later candidates and the search of the package store
    are not run. *)
Theorem findLuaPath_returns_first_working_candidate
    (E : Env) (pre : list string) (p : string) (post : list string)
    (w : World) :
  possiblePaths = pre ++ p :: post ->
  (forall q, q ∈ pre -> forall opts fs,
     exists e fs', shell E (q +:+ " -v") opts fs = (inl e, fs')) ->
  (forall opts fs,
     exists stdout fs', shell E (p +:+ " -v") opts fs = (inr stdout, fs')) ->
  result (findLuaPath E w) = Ok p /\
  trace (findLuaPath E w) = map EExec (probe_commands (pre ++ [p])).
Proof.
  intros Hsplit Hfail Hgood. unfold findLuaPath. rewrite Hsplit.
  by apply probe_first_success.
Qed.

Lemma only_shell_good (good : string) (opts : ExecOptions)
    (fs : gmap string string) :
  exists stdout fs',
    only_shell good (good +:+ " -v") opts fs = (inr stdout, fs').
Proof.
  unfold only_shell. rewrite String.eqb_refl. eauto.
Qed.

Lemma first_working_candidate_witness :
  result (findLuaPath (shell_env "u1" (only_shell "lua5.1")) (boot ∅ ∅)) =
    Ok "lua5.1" /\
  trace (findLuaPath (shell_env "u1" (only_shell "lua5.1")) (boot ∅ ∅)) =
    [EExec "lua -v"; EExec "lua5.1 -v"].
Proof.
  apply (findLuaPath_returns_first_working_candidate
           (shell_env "u1" (only_shell "lua5.1")) ["lua"] "lua5.1"
           ["/nix/store/mqbhz05llkddfb5wni0m48kw22ixxps4-lua-5.1.5/bin/lua"]).
  - reflexivity.
  - intros q Hq opts fs. apply list_elem_of_singleton in Hq as ->.
    simpl. eauto.
  - intros opts fs. apply only_shell_good.
Defined.

(** X8: when no candidate answers its probe, [findLuaPath] is decided by the
    search of the package store: it returns the output of the search with
    the white space around it removed (that of Unicode, as [trim] does), and throws its error when the search
    fails or prints nothing but white space.  All four command lines have
    then been run, in order. *)
Theorem findLuaPath_falls_back_to_search
    (E : Env) (answer : JsError + string) (w : World) :
  (forall q, q ∈ possiblePaths -> forall opts fs,
     exists e fs', shell E (q +:+ " -v") opts fs = (inl e, fs')) ->
  (forall opts fs, exists fs', shell E find_command opts fs = (answer, fs')) ->
  result (findLuaPath E w) =
    match answer with
    | inl _ => Throw (Error not_found)
    | inr stdout =>
        if String.eqb (trim stdout) EmptyString
        then Throw (Error not_found) else Ok (trim stdout)
    end /\
  trace (findLuaPath E w) = map EExec resolver_commands.
Proof.
  intros Hfail Hfind. unfold findLuaPath.
  match goal with |- context [probe E possiblePaths ?m] => set (after := m) end.
  destruct (probe_all_fail E possiblePaths after w Hfail) as (w0 & _ & ->).
  unfold result, final, trace. simpl.
  subst after. unfold try_catch, bind, execAsync, ret, throw.
  destruct (Hfind (mkOptions 10000 None) (files w0)) as (fs' & ->).
  destruct answer as [e|stdout]; simpl; [split; reflexivity|].
  destruct (String.eqb (trim stdout) EmptyString); split; reflexivity.
Qed.

Lemma find_shell_fails (stdout q : string) (opts : ExecOptions)
    (fs : gmap string string) :
  q ∈ possiblePaths ->
  exists e fs', find_shell stdout (q +:+ " -v") opts fs = (inl e, fs').
Proof.
  unfold possiblePaths. set_unfold.
  intros [->|[->|[->|[]]]]; simpl; eauto.
Qed.

Lemma falls_back_to_search_witness :
  result (findLuaPath (shell_env "u1" (find_shell (bytes [194; 160; 10])))
            (boot ∅ ∅)) =
    Throw (Error not_found) /\
  result (findLuaPath
            (shell_env "u1" (find_shell "/nix/store/x-lua-5.1/bin/lua
"))
            (boot ∅ ∅)) =
    Ok "/nix/store/x-lua-5.1/bin/lua".
Proof.
  split.
  - apply (findLuaPath_falls_back_to_search
             (shell_env "u1" (find_shell (bytes [194; 160; 10])))
             (inr (bytes [194; 160; 10]))).
    + intros q Hq opts fs. by apply find_shell_fails.
    + intros opts fs. simpl. eauto.
  - apply (findLuaPath_falls_back_to_search
             (shell_env "u1"
                (find_shell "/nix/store/x-lua-5.1/bin/lua
"))
             (inr "/nix/store/x-lua-5.1/bin/lua
")).
    + intros q Hq opts fs. by apply find_shell_fails.
    + intros opts fs. simpl. eauto.
Defined.

Lemma probe_prefix (E : Env) (paths : list string) (after : M string)
    (w : World) :
  (exists k p,
     paths !! k = Some p /\
     result (probe E paths after w) = Ok p /\
     trace (probe E paths after w) =
       map EExec (take (S k) (probe_commands paths))) \/
  (exists w0,
     probe E paths after w =
     (result (after w0), final (after w0),
      map EExec (probe_commands paths) ++ trace (after w0))).
Proof.
  revert w. induction paths as [|q paths IH]; intros w; simpl.
  - right. exists w. by destruct (after w) as [[r w'] t].
  - unfold try_catch, bind, execAsync, ret.
    destruct (shell E (q +:+ " -v") (mkOptions 5000 None) (files w))
      as [[e|stdout] fs].
    + destruct (IH (set_files fs w)) as [(k & p & Hk & Hr & Ht)|(w0 & ->)].
      * left. exists (S k), p. split; [exact Hk|].
        destruct (probe E paths after (set_files fs w)) as [[r w'] t].
        unfold result, trace in *. simpl in *. subst. split; reflexivity.
      * right. exists w0. reflexivity.
    + left. exists 0, q. repeat split.
Qed.

(** X9: whatever the shell answers, [findLuaPath] runs between one and four
    command lines, a prefix of its fixed list: the probes of the three
    candidates in order, then the search.  A path it returns after fewer
    than four commands is the candidate probed last; a path it returns is
    never empty; and it throws only after all four commands, and only its
    own error. *)
Theorem findLuaPath_runs_a_prefix_of_its_commands (E : Env) (w : World) :
  exists k,
    1 <= k <= 4 /\
    trace (findLuaPath E w) = map EExec (take k resolver_commands) /\
    match result (findLuaPath E w) with
    | Ok path =>
        path <> EmptyString /\
        (k <= 3 -> possiblePaths !! (k - 1) = Some path)
    | Throw e => k = 4 /\ e = Error not_found
    end.
Proof.
  unfold findLuaPath.
  match goal with |- context [probe E possiblePaths ?m] => set (after := m) end.
  destruct (probe_prefix E possiblePaths after w)
    as [(k & p & Hk & -> & ->)|(w0 & ->)].
  - exists (S k). unfold possiblePaths in Hk.
    destruct k as [|[|[|k]]]; simpl in Hk; try discriminate Hk;
      injection Hk as <-; (split; [lia|]); (split; [reflexivity|]);
      (split; [discriminate | intros _; reflexivity]).
  - exists 4. split; [lia|]. unfold result, final, trace. simpl.
    subst after. unfold try_catch, bind, execAsync, ret, throw.
    destruct (shell E find_command (mkOptions 10000 None) (files w0))
      as [[e|stdout] fs]; simpl; [by repeat split|].
    destruct (String.eqb_spec (trim stdout) EmptyString) as [Hempty|Hfound];
      simpl; [by repeat split|].
    split; [reflexivity|]. split; [exact Hfound | lia].
Qed.

(** ** The start-up *)

(** X10: the start-up never throws, whether the scratch directory can be
    created or not and whether an interpreter is found or not.  It attempts
    the creation of the directory first, then runs the resolver, and ends
    with one line on the console: the path found, which is then in the
    cache and is not empty, or a warning, the cache being left as it
    was. *)
Theorem registerRoutes_never_throws
    (cwd : string) (join : list string -> string) (E : Env) (w : World) :
  exists w' t line,
    registerRoutes cwd join E w =
      (Ok tt, w', EMkdir (TEMP_DIR cwd join) :: t ++ [EConsole line]) /\
    Forall resolver_event t /\
    ((cachedLuaPath w' = cachedLuaPath w /\
      line = "Warning: Could not find Lua interpreter on startup:") \/
     (exists path,
        path <> EmptyString /\ cachedLuaPath w' = Some path /\
        line = "Found Lua at: " +:+ path)).
Proof.
  destruct (ensureTempDir_run cwd join E w) as (w0 & Hdir & Hc & _).
  unfold registerRoutes, bind, try_catch. rewrite Hdir.
  destruct (findLuaPath_resolves E w0) as (r & w1 & t & Hrun & Hc1 & _ & Ht & Hr).
  rewrite Hrun. unfold assign_cachedLuaPath, console.
  destruct r as [path|e]; simpl.
  - eexists _, t, _. split; [reflexivity|]. split; [exact Ht|].
    right. exists path. auto.
  - eexists _, t, _. split; [reflexivity|]. split; [exact Ht|].
    left. split; [congruence | reflexivity].
Qed.

(** ** The scratch paths *)

Lemma append_assoc (a b c : string) : (a +:+ b) +:+ c = a +:+ (b +:+ c).
Proof.
  induction a as [|x a IH]; [reflexivity|].
  change (String x ((a +:+ b) +:+ c) = String x (a +:+ (b +:+ c))).
  by rewrite IH.
Qed.

Lemma length_append (a b : string) :
  String.length (a +:+ b) = String.length a + String.length b.
Proof.
  induction a as [|x a IH]; [reflexivity|].
  change (S (String.length (a +:+ b)) = S (String.length a + String.length b)).
  by rewrite IH.
Qed.

Lemma append_inv_tail (a b c : string) : a +:+ c = b +:+ c -> a = b.
Proof.
  revert b. induction a as [|x a IH]; intros [|y b] H.
  - reflexivity.
  - change (c = String y (b +:+ c)) in H.
    apply (f_equal String.length) in H.
    change (String.length c = S (String.length (b +:+ c))) in H.
    rewrite length_append in H. lia.
  - change (String x (a +:+ c) = c) in H.
    apply (f_equal String.length) in H.
    change (S (String.length (a +:+ c)) = String.length c) in H.
    rewrite length_append in H. lia.
  - change (String x (a +:+ c) = String y (b +:+ c)) in H.
    injection H as -> H. f_equal. by apply IH.
Qed.

Lemma posix_join_pair (dir segment : string) :
  posix_join [dir; segment] =
  if String.eqb segment EmptyString then dir else dir +:+ "/" +:+ segment.
Proof. reflexivity. Qed.

Lemma posix_join_inj (dir a b : string) :
  posix_join [dir; a] = posix_join [dir; b] -> a = b.
Proof.
  rewrite !posix_join_pair.
  destruct (String.eqb_spec a EmptyString) as [->|Ha],
           (String.eqb_spec b EmptyString) as [->|Hb]; intros H.
  - reflexivity.
  - apply (f_equal String.length) in H. rewrite !length_append in H.
    simpl in H. lia.
  - apply (f_equal String.length) in H. rewrite !length_append in H.
    simpl in H. lia.
  - apply String.app_inj in H. simpl in H. by injection H.
Qed.

Lemma slash_free_append (a b : string) :
  slash_free (a +:+ b) = slash_free a && slash_free b.
Proof.
  unfold slash_free. induction a as [|c a IH]; [reflexivity|].
  change (negb (Ascii.eqb c "/") &&
          forallb (fun c => negb (Ascii.eqb c "/"))
                  (list_ascii_of_string (a +:+ b)) =
          negb (Ascii.eqb c "/") &&
          forallb (fun c => negb (Ascii.eqb c "/")) (list_ascii_of_string a) &&
          slash_free b).
  rewrite IH. unfold slash_free. by rewrite andb_assoc.
Qed.

Lemma slash_free_suffix (id suffix : string) :
  slash_free id = true -> slash_free suffix = true ->
  slash_free (id +:+ suffix) = true.
Proof. intros Hid Hs. by rewrite slash_free_append, Hid, Hs. Qed.

(** X11: the scratch files are named after the identifier of their job.
    [path.join] of POSIX puts a file name that holds no slash and starts
    with [input_] under the scratch directory as it is, so it keeps two such
    names apart; given that, and for identifiers that hold no slash, as
    those of [randomUUID] do: jobs with distinct identifiers have distinct
    input files and distinct output files, the input file of a job is never
    its own output file, and the input file of one job is the output file
    of another exactly when the identifier of the first is that of the
    second followed by [.obfuscated]. *)
Theorem scratch_paths_are_namespaced_by_identifier
    (cwd : string) (join : list string -> string) :
  (forall a b,
     slash_free a = true -> slash_free b = true ->
     join [TEMP_DIR cwd join; "input_" +:+ a] =
     join [TEMP_DIR cwd join; "input_" +:+ b] -> a = b) ->
  (forall id1 id2,
     slash_free id1 = true -> slash_free id2 = true ->
     inputFile cwd join id1 = inputFile cwd join id2 -> id1 = id2) /\
  (forall id1 id2,
     slash_free id1 = true -> slash_free id2 = true ->
     outputFile cwd join id1 = outputFile cwd join id2 -> id1 = id2) /\
  (forall id1 id2,
     slash_free id1 = true -> slash_free id2 = true ->
     (inputFile cwd join id1 = outputFile cwd join id2 <->
      id1 = id2 +:+ ".obfuscated")) /\
  (forall id,
     slash_free id = true ->
     inputFile cwd join id <> outputFile cwd join id).
Proof.
  intros Hjoin.
  assert (Hcross : forall id1 id2,
            slash_free id1 = true -> slash_free id2 = true ->
            (inputFile cwd join id1 = outputFile cwd join id2 <->
             id1 = id2 +:+ ".obfuscated")).
  { intros id1 id2 H1 H2. unfold inputFile, outputFile. split.
    - intros H. apply Hjoin in H; try (by apply slash_free_suffix).
      change (id2 +:+ ".obfuscated.lua")
        with (id2 +:+ (".obfuscated" +:+ ".lua")) in H.
      rewrite <- append_assoc in H. by apply append_inv_tail in H.
    - intros ->. by rewrite append_assoc. }
  split_and!.
  - intros id1 id2 H1 H2 H. unfold inputFile in H.
    apply Hjoin in H; try (by apply slash_free_suffix).
    by apply append_inv_tail in H.
  - intros id1 id2 H1 H2 H. unfold outputFile in H.
    apply Hjoin in H; try (by apply slash_free_suffix).
    by apply append_inv_tail in H.
  - exact Hcross.
  - intros id Hid H. apply (Hcross id id Hid Hid) in H.
    apply (f_equal String.length) in H. rewrite length_append in H.
    simpl in H. lia.
Qed.

Lemma scratch_paths_witness :
  inputFile "/srv" posix_join "0b6d3c1e-8a57-4f0e-9a3b-5d2f6c7e8a90" <>
  outputFile "/srv" posix_join "0b6d3c1e-8a57-4f0e-9a3b-5d2f6c7e8a90" /\
  (inputFile "/srv" posix_join "u1" = inputFile "/srv" posix_join "u2" ->
   "u1" = "u2").
Proof.
  destruct (scratch_paths_are_namespaced_by_identifier "/srv" posix_join)
    as (Hin & _ & _ & Hself).
  - intros a b _ _ H. apply posix_join_inj in H.
    by apply String.app_inj in H.
  - split; [by apply Hself | by apply Hin].
Defined.

(** ** The page and the server *)

Lemma trim_nonempty (s : string) : trim s <> EmptyString -> s <> EmptyString.
Proof. intros H ->. by apply H. Qed.

Lemma validatedPreset_of_page (p : Client.PresetLevel) :
  validatedPreset (presetOrDefault (JStr (Client.preset_text p))) =
  Client.preset_text p.
Proof. by destruct p. Qed.

Lemma handleObfuscate_sent (st : Client.Home) (body : Body) :
  (Client.handleObfuscate st).1 = Some body ->
  trim (Client.inputCode st) <> EmptyString /\
  body = mkBody (JStr (Client.inputCode st))
                (JStr (Client.preset_text (Client.preset st))).
Proof.
  unfold Client.handleObfuscate. simpl.
  destruct (String.eqb_spec (trim (Client.inputCode st)) EmptyString)
    as [Hblank|Htext]; simpl; [discriminate|].
  intros [= <-]. auto.
Qed.

(** X12: every request the page sends passes the guard of the server and its
    normalisation unchanged: the body carries the text of the editor as it
    is, that text is not rejected, and the tier the server settles on is the
    preset selected on the page.  The page sends a request exactly when the
    text of the editor is more than white space, that of Unicode
    included. *)
Theorem page_requests_pass_the_server_guard (st : Client.Home) :
  match Client.handleObfuscate st with
  | (Some body, toasts) =>
      trim (Client.inputCode st) <> EmptyString /\
      toasts = [] /\
      code body = JStr (Client.inputCode st) /\
      rejected (code body) = false /\
      validatedPreset (presetOrDefault (preset body)) =
        Client.preset_text (Client.preset st)
  | (None, toasts) =>
      trim (Client.inputCode st) = EmptyString /\
      toasts = [Client.mkToast true "No Code Entered"
                  "Please enter some Lua code to obfuscate."]
  end.
Proof.
  unfold Client.handleObfuscate. simpl.
  destruct (String.eqb_spec (trim (Client.inputCode st)) EmptyString)
    as [Hblank|Htext]; simpl; [by split|].
  split_and!; auto.
  - apply trim_nonempty in Htext. unfold rejected. simpl.
    by rewrite (proj2 (String.eqb_neq _ _) Htext).
  - apply validatedPreset_of_page.
Qed.

(** An editor that holds one no-break space sends nothing. *)
Lemma page_stops_no_break_space :
  trim (Client.inputCode
          (Client.setInputCode (bytes [194; 160]) Client.initial)) =
    EmptyString /\
  [Client.mkToast true "No Code Entered"
     "Please enter some Lua code to obfuscate."] =
  [Client.mkToast true "No Code Entered"
     "Please enter some Lua code to obfuscate."].
Proof.
  exact (page_requests_pass_the_server_guard
           (Client.setInputCode (bytes [194; 160]) Client.initial)).
Defined.

(** X13: the guard of the server is weaker than that of the page: a source
    text that is not empty but holds only white space is never sent by the
    page, and is not rejected by the server when it arrives. *)
Theorem blank_source_stopped_by_page_only (st : Client.Home) :
  Client.inputCode st <> EmptyString ->
  trim (Client.inputCode st) = EmptyString ->
  (Client.handleObfuscate st).1 = None /\
  rejected (JStr (Client.inputCode st)) = false.
Proof.
  intros Hne Hblank. unfold Client.handleObfuscate, rejected. simpl.
  rewrite Hblank. simpl. split; [reflexivity|].
  by rewrite (proj2 (String.eqb_neq _ _) Hne).
Qed.

Lemma blank_source_witness :
  (Client.handleObfuscate (Client.setInputCode "  " Client.initial)).1 = None /\
  rejected (JStr "  ") = false.
Proof.
  apply (blank_source_stopped_by_page_only
           (Client.setInputCode "  " Client.initial));
    [discriminate | reflexivity].
Defined.

Lemma handler_success_inv (cwd : string) (join : list string -> string)
    (E : Env) (body : Body) (w : World) (response : Response)
    (text used : string) :
  result (handler cwd join E body w) = Ok response ->
  json response = Success text used ->
  used = validatedPreset (presetOrDefault (preset body)) /\
  status response = 200.
Proof.
  intros Hrun Hjson. destruct (rejected (code body)) eqn:Hok.
  { unfold handler in Hrun. rewrite Hok in Hrun.
    injection Hrun as <-. discriminate Hjson. }
  destruct (ensureLua_spec E w) as (early & w1 & t1 & Hlua & _ & _ & _ & Hfail).
  destruct early as [failure|].
  - exfalso. destruct (Hfail failure eq_refl) as (_ & _ & Hfalsy).
    unfold handler, bind in Hrun. rewrite Hok, Hlua in Hrun.
    injection Hrun as <-.
    rewrite (ensureLua_empty E w Hfalsy) in Hlua.
    destruct (findLuaPath E w) as [[[path|e] w0] t0]; [discriminate|].
    injection Hlua as <- _ _. discriminate Hjson.
  - destruct (handler_run cwd join E body w w1 t1 Hok Hlua)
      as (w' & rel & Hrun' & _).
    rewrite Hrun' in Hrun. injection Hrun as <-.
    destruct (job_verdict _ _ _ _ _ _) as [e|text']; simpl in *;
      [discriminate|]. injection Hjson as _ <-. auto.
Qed.

(** X14: the page after a round trip.  The page sent a request in the state
    [st]; when the response of the server arrives, [onSuccess] is handed
    its JSON in the state [now] the page is in by then, whose preset may
    have been changed meanwhile.  The text of the editor and the preset of
    [now] are kept; on a failure nothing of the page changes; on a success
    the status was 200, the output becomes the text of the response, the
    output tab is shown, and the tier the server reports is the preset that
    was selected when the request was sent; the toast names the preset of
    [now], which is that tier when the preset was not changed. *)
Theorem round_trip_updates_output_only_on_success
    (cwd : string) (join : list string -> string) (E : Env)
    (st now : Client.Home) (body : Body) (w : World) (response : Response) :
  (Client.handleObfuscate st).1 = Some body ->
  result (handler cwd join E body w) = Ok response ->
  Client.inputCode (Client.onSuccess (json response) now).1 =
    Client.inputCode now /\
  Client.preset (Client.onSuccess (json response) now).1 =
    Client.preset now /\
  match json response with
  | Success text tier =>
      status response = 200 /\
      tier = Client.preset_text (Client.preset st) /\
      Client.outputCode (Client.onSuccess (json response) now).1 = text /\
      Client.mobileTab (Client.onSuccess (json response) now).1 =
        Client.OutputTab /\
      (Client.onSuccess (json response) now).2 =
        [Client.mkToast false "Obfuscation Complete"
           ("Your code has been successfully obfuscated with the " +:+
            Client.preset_text (Client.preset now) +:+ " preset.")] /\
      (Client.preset now = Client.preset st ->
       (Client.onSuccess (json response) now).2 =
         [Client.mkToast false "Obfuscation Complete"
            ("Your code has been successfully obfuscated with the " +:+
             tier +:+ " preset.")])
  | Failure _ => (Client.onSuccess (json response) now).1 = now
  end.
Proof.
  intros Hsent Hrun.
  destruct (handleObfuscate_sent st body Hsent) as [_ Hbody].
  destruct (json response) as [text tier|error] eqn:Hjson; simpl;
    [|by repeat split].
  destruct (handler_success_inv cwd join E body w response text tier
              Hrun Hjson) as [-> Hstatus].
  assert (Htier : validatedPreset (presetOrDefault (preset body)) =
                  Client.preset_text (Client.preset st)).
  { rewrite Hbody. apply validatedPreset_of_page. }
  split_and!; auto.
  intros ->. by rewrite Htier.
Qed.

(** The request is sent with [Maximum] selected; the preset is changed to
    [Weak] before the response arrives: the server reports [Maximum], the
    toast names [Weak]. *)
Lemma round_trip_witness :
  Client.outputCode
    (Client.onSuccess
       (Success "return 1" "Maximum")
       (Client.setPreset Client.Weak
          (Client.setInputCode "print(1)" Client.initial))).1 = "return 1" /\
  "Maximum" = Client.preset_text Client.Maximum /\
  (Client.onSuccess
     (Success "return 1" "Maximum")
     (Client.setPreset Client.Weak
        (Client.setInputCode "print(1)" Client.initial))).2 =
    [Client.mkToast false "Obfuscation Complete"
       "Your code has been successfully obfuscated with the Weak preset."].
Proof.
  destruct (round_trip_updates_output_only_on_success "/srv" posix_join
              (demo_env "u1" "return 1")
              (Client.setInputCode "print(1)" Client.initial)
              (Client.setPreset Client.Weak
                 (Client.setInputCode "print(1)" Client.initial))
              (mkBody (JStr "print(1)") (JStr "Maximum"))
              (mkWorld ∅ ∅ (Some "lua"))
              (mkResponse 200 (Success "return 1" "Maximum")))
    as (_ & _ & _ & Htier & Hout & _ & Htoast & _).
  - reflexivity.
  - vm_compute. reflexivity.
  - split_and!; [exact Hout | exact Htier | exact Htoast].
Defined.

(** X15: what the page offers for download after a success is the text of
    that success, unless that text is empty: then the success toast has
    been shown, yet nothing can be downloaded and the output panel counts
    no line. *)
Theorem download_offers_the_text_of_the_last_success
    (text tier : string) (st : Client.Home) :
  let st' := (Client.onSuccess (Success text tier) st).1 in
  (text <> EmptyString ->
   (Client.downloadCode st').1 = Some text /\
   Client.outputLinesShown st' = Client.lineCount text) /\
  (text = EmptyString ->
   Client.downloadCode st' = (None, []) /\
   Client.outputLinesShown st' = 0).
Proof.
  unfold Client.downloadCode, Client.outputLinesShown. simpl. split.
  - intros Hne. rewrite (proj2 (String.eqb_neq _ _) Hne). by split.
  - intros ->. by split.
Qed.

Lemma split_lines_nonempty (s : string) : Client.split_lines s <> [].
Proof.
  induction s as [|c s IH]; simpl; [discriminate|].
  destruct (Ascii.eqb c "010"); [discriminate|].
  by destruct (Client.split_lines s).
Qed.

Lemma lineCount_newlines (s : string) :
  Client.lineCount s = S (Client.newlines s).
Proof.
  unfold Client.lineCount. induction s as [|c s IH]; simpl; [reflexivity|].
  destruct (Ascii.eqb c "010"); simpl; [by rewrite IH|].
  pose proof (split_lines_nonempty s) as Hne.
  destruct (Client.split_lines s); [done | exact IH].
Qed.

Lemma newlines_append (a b : string) :
  Client.newlines (a +:+ b) = Client.newlines a + Client.newlines b.
Proof.
  induction a as [|c a IH]; [reflexivity|].
  change (Client.newlines (String c (a +:+ b)) =
          Client.newlines (String c a) + Client.newlines b).
  simpl. rewrite IH. lia.
Qed.

(** X16: the line count the page shows is the number of line feeds of the
    text plus one: one for the empty text, and the counts of two texts add
    up when they are joined by a line feed.  Splitting loses nothing:
    joining the lines with line feeds gives the text back.  Under the
    output panel the count is replaced by zero exactly when the output is
    empty. *)
Theorem line_count_is_line_feeds_plus_one :
  (forall s, Client.lineCount s = S (Client.newlines s)) /\
  Client.lineCount EmptyString = 1 /\
  (forall a b,
     Client.lineCount (a +:+ String "010" b) =
     Client.lineCount a + Client.lineCount b) /\
  (forall s, String.concat (String "010" EmptyString) (Client.split_lines s)
             = s) /\
  (forall st,
     Client.outputLinesShown st = 0 <-> Client.outputCode st = EmptyString).
Proof.
  split_and!.
  - apply lineCount_newlines.
  - reflexivity.
  - intros a b. rewrite !lineCount_newlines, newlines_append. simpl. lia.
  - induction s as [|c s IH]; [reflexivity|]. simpl.
    pose proof (split_lines_nonempty s) as Hne.
    destruct (Ascii.eqb_spec c "010") as [->|Hc].
    + destruct (Client.split_lines s) as [|l ls]; [done|].
      change (String "010" (String.concat (String "010" EmptyString) (l :: ls))
              = String "010" s). by rewrite IH.
    + destruct (Client.split_lines s) as [|l ls]; [done|].
      rewrite <- IH. by destruct ls.
  - intros st. unfold Client.outputLinesShown. simpl.
    destruct (String.eqb_spec (Client.outputCode st) EmptyString)
      as [Hempty|Hne]; simpl; [tauto|].
    rewrite lineCount_newlines. split; [lia | tauto].
Qed.

